(** * Automatic code review system: the scoring and rule-matching engine

    A shallow embedding of [analyzer.py] and [command_analyzer.py] and the
    properties of the two analysis pipelines.

    Conventions of the embedding.
    - A Python [str] is a Rocq [string]; its characters are read as the code
      points U+0000..U+00FF, with Python's own character tables on that range.
    - A Python exception is a value of [exn]; code inside [try] blocks is
      written in a state-and-exception monad so that what was appended to a
      list before a [raise] is still there in the handler.
    - What the program obtains from outside (the [ast] parser, the [pylint]
      subprocess, [radon], the file system) is a parameter of the model. *)

From Stdlib Require Import String Ascii List ZArith Lia Bool Arith.
From Stdlib Require Import Numbers.DecimalString.
Import ListNotations.

Open Scope list_scope.
Open Scope string_scope.

Set Implicit Arguments.

(* ===================================================================== *)
(** * Python strings *)
(* ===================================================================== *)

Module PyStr.

(** The double quote and single quote characters. *)
Definition dq : ascii := "034"%char.
Definition sq : ascii := "039"%char.
Definition nl : ascii := "010"%char.
Definition tab : ascii := "009"%char.

Definition str1 (c : ascii) : string := String c EmptyString.

Definition code (c : ascii) : nat := nat_of_ascii c.

Definition between (lo hi n : nat) : bool := ((lo <=? n) && (n <=? hi))%nat.

(** [str.isspace] on one character (also the class [\s] of [re]). *)
Definition isspace (c : ascii) : bool :=
  let n := code c in
  between 9 13 n || between 28 32 n || Nat.eqb n 133 || Nat.eqb n 160.

(** [str.isupper] on one character. *)
Definition isupper (c : ascii) : bool :=
  let n := code c in
  between 65 90 n || between 192 214 n || between 216 222 n.

(** [str.islower] on one character. *)
Definition islower_char (c : ascii) : bool :=
  let n := code c in
  between 97 122 n || Nat.eqb n 170 || Nat.eqb n 181 || Nat.eqb n 186
  || between 223 246 n || between 248 255 n.

(** [str.isalnum] on one character, or the underscore: the class [\w]. *)
Definition isword (c : ascii) : bool :=
  let n := code c in
  between 48 57 n || between 65 90 n || Nat.eqb n 95 || between 97 122 n
  || Nat.eqb n 170 || Nat.eqb n 178 || Nat.eqb n 179 || Nat.eqb n 181 || Nat.eqb n 185
  || Nat.eqb n 186 || between 188 190 n || between 192 214 n
  || between 216 246 n || between 248 255 n.

(** [str.lower] on one character. *)
Definition lower_char (c : ascii) : ascii :=
  if isupper c then ascii_of_nat (code c + 32) else c.

(** [s.lower()] *)
Fixpoint lower (s : string) : string :=
  match s with
  | EmptyString => EmptyString
  | String c s' => String (lower_char c) (lower s')
  end.

(** [s.islower()]: no uppercase character and at least one lowercase one. *)
Fixpoint has_upper (s : string) : bool :=
  match s with
  | EmptyString => false
  | String c s' => isupper c || has_upper s'
  end.

Fixpoint has_lower (s : string) : bool :=
  match s with
  | EmptyString => false
  | String c s' => islower_char c || has_lower s'
  end.

Definition islower (s : string) : bool := negb (has_upper s) && has_lower s.

(** [s.istitle()]: uppercase characters only after uncased ones, lowercase
    characters only after cased ones, and at least one cased character. *)
Fixpoint istitle_from (prev_cased cased : bool) (s : string) : bool :=
  match s with
  | EmptyString => cased
  | String c s' =>
      if isupper c then
        if prev_cased then false else istitle_from true true s'
      else if islower_char c then
        if prev_cased then istitle_from true true s' else false
      else istitle_from false cased s'
  end.

Definition istitle (s : string) : bool := istitle_from false false s.

(** [s.startswith(p)] *)
Definition startswith (s p : string) : bool := String.prefix p s.

(** [sub in s] *)
Fixpoint contains (sub s : string) : bool :=
  String.prefix sub s ||
  match s with
  | EmptyString => false
  | String _ s' => contains sub s'
  end.

(** [s.lstrip()] *)
Fixpoint lstrip (s : string) : string :=
  match s with
  | EmptyString => EmptyString
  | String c s' => if isspace c then lstrip s' else s
  end.

(** [s.rstrip()] *)
Fixpoint rstrip (s : string) : string :=
  match s with
  | EmptyString => EmptyString
  | String c s' =>
      match rstrip s' with
      | EmptyString => if isspace c then EmptyString else str1 c
      | r => String c r
      end
  end.

(** [s.strip()] *)
Definition strip (s : string) : string := rstrip (lstrip s).

(** [s.split(sep)] for a one-character separator. *)
Fixpoint split_on (sep : ascii) (s : string) : list string :=
  match s with
  | EmptyString => [EmptyString]
  | String c s' =>
      if Ascii.eqb c sep then EmptyString :: split_on sep s'
      else match split_on sep s' with
           | [] => [str1 c]
           | w :: ws => String c w :: ws
           end
  end.

(** [s.split()]: the maximal runs of characters that are not whitespace.
    [cur] is the run being read, if any. *)
Fixpoint split_ws_from (cur : option string) (s : string) : list string :=
  match s with
  | EmptyString => match cur with Some w => [w] | None => [] end
  | String c s' =>
      if isspace c then
        match cur with
        | Some w => w :: split_ws_from None s'
        | None => split_ws_from None s'
        end
      else
        match cur with
        | Some w => split_ws_from (Some (w ++ str1 c)) s'
        | None => split_ws_from (Some (str1 c)) s'
        end
  end.

Definition split_ws (s : string) : list string := split_ws_from None s.

(** [sep.join(l)] *)
Fixpoint join (sep : string) (l : list string) : string :=
  match l with
  | [] => EmptyString
  | [x] => x
  | x :: rest => x ++ sep ++ join sep rest
  end.

(** [' ' * n] *)
Fixpoint spaces (n : nat) : string :=
  match n with
  | O => EmptyString
  | S n' => String " " (spaces n')
  end.

(** [s[:n]] *)
Definition take (n : nat) (s : string) : string := String.substring 0 n s.

(** [str(n)] for an integer. *)
Definition str_of_Z (n : Z) : string := NilZero.string_of_int (Z.to_int n).

(** [s.endswith(suffix)] *)
Definition endswith (s suffix : string) : bool :=
  (String.length suffix <=? String.length s)%nat
  && (String.substring (String.length s - String.length suffix)
                       (String.length suffix) s =? suffix).

(** [c in s] for one character. *)
Fixpoint has_char (c : ascii) (s : string) : bool :=
  match s with
  | EmptyString => false
  | String a s' => Ascii.eqb a c || has_char c s'
  end.

(** Every character, by code point. *)
Definition all_chars : list ascii := map ascii_of_nat (seq 0 256).

End PyStr.

(* ===================================================================== *)
(** * Python exceptions and the monad of [try] blocks *)
(* ===================================================================== *)

(** The exceptions the two modules can meet.  [OtherException] stands for any
    exception of class [Exception] that is none of the named ones. *)
Inductive exn : Type :=
| SyntaxError (msg : string) (lineno : option Z)
| IndexError (msg : string)
| UnboundLocalError (msg : string)
| ReError (msg : string)
| OSError (msg : string)
| OtherException (msg : string).

(** [str(e)] *)
Definition exn_str (e : exn) : string :=
  match e with
  | SyntaxError m _ | IndexError m | UnboundLocalError m
  | ReError m | OSError m | OtherException m => m
  end.

(** [isinstance(e, SyntaxError)] *)
Definition is_SyntaxError (e : exn) : bool :=
  match e with SyntaxError _ _ => true | _ => false end.

Inductive result (A : Type) : Type :=
| Ok (a : A)
| Raise (e : exn).

Arguments Ok {A} a.
Arguments Raise {A} e.

(** A computation over the local variables [S] of a function body: it returns
    the variables as it left them together with a value or the exception
    raised. *)
Definition M (S A : Type) : Type := S -> S * result A.

Module MonadM.

Definition ret {S A} (a : A) : M S A := fun s => (s, Ok a).

Definition raise {S A} (e : exn) : M S A := fun s => (s, Raise e).

Definition bind {S A B} (m : M S A) (k : A -> M S B) : M S B :=
  fun s => match m s with
           | (s', Ok a) => k a s'
           | (s', Raise e) => (s', Raise e)
           end.

Definition get {S} : M S S := fun s => (s, Ok s).

Definition modify {S} (f : S -> S) : M S unit := fun s => (f s, Ok tt).

(** A pure call that may raise. *)
Definition lift {S A} (r : result A) : M S A := fun s => (s, r).

(** [try: body except <classes accepted by catches> as e: handler(e)] *)
Definition try_except {S A} (body : M S A) (catches : exn -> bool)
           (handler : exn -> M S A) : M S A :=
  fun s => match body s with
           | (s', Ok a) => (s', Ok a)
           | (s', Raise e) => if catches e then handler e s' else (s', Raise e)
           end.

(** [for x in l: body(x)] *)
Fixpoint for_each {S X} (l : list X) (body : X -> M S unit) : M S unit :=
  match l with
  | [] => ret tt
  | x :: rest => bind (body x) (fun _ => for_each rest body)
  end.

(** [if b: body] *)
Definition when {S} (b : bool) (body : M S unit) : M S unit :=
  if b then body else ret tt.

(** The computation keeps the property [P] of the local variables, whether
    it returns or raises. *)
Definition preserves {S A} (P : S -> Prop) (m : M S A) : Prop :=
  forall s, P s -> P (fst (m s)).

(** The computation returns a value from every state. *)
Definition no_raise {S A} (m : M S A) : Prop :=
  forall s, exists a, snd (m s) = Ok a.

End MonadM.

Import MonadM.

Declare Scope py_scope.
Delimit Scope py_scope with py.
Notation "x <- m ;; k" := (bind m (fun x => k))
  (at level 61, m at next level, right associativity) : py_scope.
Notation "m ;;; k" := (bind m (fun _ => k))
  (at level 61, right associativity) : py_scope.

(** Every exception of class [Exception]. *)
Definition any_Exception (e : exn) : bool := true.

(** The truth value of an optional object: [None] is false. *)
Definition is_some {A} (o : option A) : bool :=
  match o with Some _ => true | None => false end.

(** [l[0]] *)
Definition index0 {A} (l : list A) : result A :=
  match l with
  | x :: _ => Ok x
  | [] => Raise (IndexError "list index out of range")
  end.

(* ===================================================================== *)
(** * The fragment of [re] used by the pattern tables *)
(* ===================================================================== *)

Module Regex.

Import PyStr.

(** A set of characters: one item of a pattern. *)
Inductive cset : Type :=
| Lit (c : ascii)              (* an ordinary or escaped character *)
| AnyChar                      (* [.] *)
| Space                        (* [\s] *)
| WordChar                     (* [\w] *)
| Range (lo hi : ascii)        (* [[lo-hi]] *)
| NoneOf (l : list ascii).     (* [[^...]] *)

Inductive quant : Type := One | Star | Plus.

Inductive atom : Type :=
| Cls (cs : cset) (q : quant)
| Boundary.                    (* [\b] *)

Definition pattern : Type := list atom.

Fixpoint mem (c : ascii) (l : list ascii) : bool :=
  match l with
  | [] => false
  | x :: rest => Ascii.eqb c x || mem c rest
  end.

(** Does the character [c] of the subject belong to the set?  With
    [ignorecase] ([re.IGNORECASE]) the lowered character is compared with
    the lowered members of the set. *)
Definition cset_match (ignorecase : bool) (cs : cset) (c : ascii) : bool :=
  match cs with
  | Lit l =>
      if ignorecase then Ascii.eqb (lower_char c) (lower_char l)
      else Ascii.eqb c l
  | AnyChar => negb (Ascii.eqb c nl)
  | Space => isspace c
  | WordChar => isword c
  | Range lo hi =>
      if ignorecase
      then between (code (lower_char lo)) (code (lower_char hi)) (code (lower_char c))
      else between (code lo) (code hi) (code c)
  | NoneOf l =>
      if ignorecase then negb (mem (lower_char c) (map lower_char l))
      else negb (mem c l)
  end.

(** [\b] holds between a word character and a character that is not one
    (the two ends of the subject count as not one). *)
Definition is_word_opt (o : option ascii) : bool :=
  match o with Some c => isword c | None => false end.

Definition next_char (s : string) : option ascii :=
  match s with String c _ => Some c | EmptyString => None end.

Definition at_boundary (prev : option ascii) (s : string) : bool :=
  xorb (is_word_opt prev) (is_word_opt (next_char s)).

(** A greedy repetition of a character set followed by the rest of the
    pattern [k]: the longest run first, then shorter ones. *)
Fixpoint greedy (f : ascii -> bool)
         (k : option ascii -> string -> option string)
         (prev : option ascii) (s : string) : option string :=
  match s with
  | String c s' =>
      if f c then
        match greedy f k (Some c) s' with
        | Some r => Some r
        | None => k prev s
        end
      else k prev s
  | EmptyString => k prev s
  end.

(** Match the pattern at the start of [s], [prev] being the character
    before it; the result is what is left of [s] after the match. *)
Fixpoint match_here (ic : bool) (p : pattern) (prev : option ascii)
         (s : string) : option string :=
  match p with
  | [] => Some s
  | Boundary :: p' =>
      if at_boundary prev s then match_here ic p' prev s else None
  | Cls cs One :: p' =>
      match s with
      | String c s' =>
          if cset_match ic cs c then match_here ic p' (Some c) s' else None
      | EmptyString => None
      end
  | Cls cs Star :: p' =>
      greedy (cset_match ic cs) (match_here ic p') prev s
  | Cls cs Plus :: p' =>
      match s with
      | String c s' =>
          if cset_match ic cs c
          then greedy (cset_match ic cs) (match_here ic p') (Some c) s'
          else None
      | EmptyString => None
      end
  end.

(** The text matched, given the subject and what was left of it. *)
Definition matched (s rest : string) : string :=
  take (String.length s - String.length rest) s.

Definition last_char (prev : option ascii) (m : string) : option ascii :=
  match String.get (String.length m - 1) m with
  | Some c => Some c
  | None => prev
  end.

(** The leftmost match at or after the start of [s]: [Match.group(0)] of
    [re.search], [None] when there is no match. *)
Fixpoint search_from (ic : bool) (p : pattern) (prev : option ascii)
         (s : string) : option string :=
  match match_here ic p prev s with
  | Some rest => Some (matched s rest)
  | None =>
      match s with
      | String c s' => search_from ic p (Some c) s'
      | EmptyString => None
      end
  end.

(** All matches from left to right, not overlapping ([re.findall] for a
    pattern without groups). *)
Fixpoint findall_from (fuel : nat) (ic : bool) (p : pattern)
         (prev : option ascii) (s : string) : list string :=
  match fuel with
  | O => []
  | S fuel' =>
      let advance :=
        match s with
        | String c s' => findall_from fuel' ic p (Some c) s'
        | EmptyString => []
        end in
      match match_here ic p prev s with
      | Some rest =>
          let m := matched s rest in
          m :: (match m with
                | EmptyString => advance
                | _ => findall_from fuel' ic p (last_char prev m) rest
                end)
      | None => advance
      end
  end.

(** ** Reading a pattern from its text *)

Definition is_meta (c : ascii) : bool :=
  mem c ["("; ")"; "|"; "?"; "{"; "}"; "^"; "$"; "*"; "+"; "]"]%char.

Definition is_ascii_letter_or_digit (c : ascii) : bool :=
  between 48 57 (code c) || between 65 90 (code c) || between 97 122 (code c).

(** The members of a negated set up to the closing bracket. *)
Fixpoint parse_members (s : string) : option (list ascii * string) :=
  match s with
  | EmptyString => None
  | String c rest =>
      if Ascii.eqb c "]" then Some ([], rest)
      else if Ascii.eqb c "\" then
        match rest with
        | String e rest' =>
            if is_ascii_letter_or_digit e then None
            else match parse_members rest' with
                 | Some (l, r) => Some (e :: l, r)
                 | None => None
                 end
        | EmptyString => None
        end
      else if Ascii.eqb c "-" then
        (* a range inside a negated set is outside the fragment, a hyphen
           just before the closing bracket is a member *)
        match rest with
        | String e _ =>
            if Ascii.eqb e "]" then
              match parse_members rest with
              | Some (l, r) => Some (c :: l, r)
              | None => None
              end
            else None
        | EmptyString => None
        end
      else match parse_members rest with
           | Some (l, r) => Some (c :: l, r)
           | None => None
           end
  end.

(** One item at the head of the pattern text: a character set, or [\b]
    ([None] in the first component). *)
Definition parse_item (c : ascii) (rest : string)
  : option (option cset * string) :=
  if Ascii.eqb c "\" then
    match rest with
    | String e rest' =>
        if Ascii.eqb e "s" then Some (Some Space, rest')
        else if Ascii.eqb e "w" then Some (Some WordChar, rest')
        else if Ascii.eqb e "b" then Some (None, rest')
        else if is_ascii_letter_or_digit e then None
        else Some (Some (Lit e), rest')
    | EmptyString => None
    end
  else if Ascii.eqb c "." then Some (Some AnyChar, rest)
  else if Ascii.eqb c "[" then
    match rest with
    | String e rest' =>
        if Ascii.eqb e "^" then
          match parse_members rest' with
          | Some (l, r) => Some (Some (NoneOf l), r)
          | None => None
          end
        else
          match rest' with
          | String d (String hi (String b r)) =>
              if Ascii.eqb d "-" && Ascii.eqb b "]"
                 && is_ascii_letter_or_digit e && is_ascii_letter_or_digit hi
              then Some (Some (Range e hi), r)
              else None
          | _ => None
          end
    | EmptyString => None
    end
  else if is_meta c then None
  else Some (Some (Lit c), rest).

Definition parse_quant (s : string) : quant * string :=
  match s with
  | String c rest =>
      if Ascii.eqb c "+" then (Plus, rest)
      else if Ascii.eqb c "*" then (Star, rest)
      else (One, s)
  | EmptyString => (One, s)
  end.

Fixpoint parse_atoms (fuel : nat) (s : string) : option pattern :=
  match fuel with
  | O => None
  | S fuel' =>
      match s with
      | EmptyString => Some []
      | String c rest =>
          match parse_item c rest with
          | None => None
          | Some (None, rest') =>
              match parse_atoms fuel' rest' with
              | Some p => Some (Boundary :: p)
              | None => None
              end
          | Some (Some cs, rest') =>
              let (q, rest'') := parse_quant rest' in
              match parse_atoms fuel' rest'' with
              | Some p => Some (Cls cs q :: p)
              | None => None
              end
          end
      end
  end.

(** [re.compile(text)] on the fragment; a text outside it is refused. *)
Definition compile (text : string) : result pattern :=
  match parse_atoms (S (String.length text)) text with
  | Some p => Ok p
  | None => Raise (ReError ("unsupported pattern " ++ text))
  end.

(** [re.search(text, s, flags)]: the matched text, or [None]. *)
Definition search (text : string) (s : string) (ignorecase : bool)
  : result (option string) :=
  match compile text with
  | Ok p => Ok (search_from ignorecase p None s)
  | Raise e => Raise e
  end.

(** [re.findall(text, s, flags)] *)
Definition findall (text : string) (s : string) (ignorecase : bool)
  : result (list string) :=
  match compile text with
  | Ok p => Ok (findall_from (S (String.length s)) ignorecase p None s)
  | Raise e => Raise e
  end.

End Regex.

(* ===================================================================== *)
(** * What [ast.parse] gives the two modules *)
(* ===================================================================== *)

(** A node as [ast.walk] hands it to the naming check: a function
    definition, a class definition, or any other node. *)
Inductive ast_node : Type :=
| FunctionDef (name : string) (lineno : Z)
| ClassDef (name : string) (lineno : Z)
| OtherNode.

(** [ast.parse(source)] followed by [ast.walk]: the nodes of the tree in walk
    order, or the exception raised by the parser. *)
Definition parser : Type := string -> result (list ast_node).

(* ===================================================================== *)
(** * command_analyzer.py *)
(* ===================================================================== *)

Module CommandAnalyzer.

Import PyStr.

(** An entry of the [issues] list of a command analysis. *)
Record issue : Type := mk_issue {
  i_type : string;
  i_risk : string;
  i_message : string;
  i_command_part : string
}.

(** The dictionary returned by [analyze_command]. *)
Record analysis : Type := mk_analysis {
  command : string;
  issues : list issue;
  suggestions : list string;
  risk_level : string;
  total_issues : nat;
  total_suggestions : nat;
  is_code : bool;
  corrected_code : string
}.

Definition nonempty (s : string) : bool :=
  match s with EmptyString => false | _ => true end.

(** ** [_looks_like_python] *)

Definition python_indicators : list string :=
  [ "print("; "print "; "def "; "class "; "import "; "from "; "if ";
    "for "; "while "; "try:"; "except:"; "with "; ".py"; "len("; "str(";
    "int("; "list("; "dict(" ].

Definition _looks_like_python (command : string) : bool :=
  let command := strip command in
  existsb (fun indicator => contains indicator command) python_indicators.

(** ** [_generate_corrected_code] *)

Definition triple_dq : string := String dq (String dq (String dq EmptyString)).
Definition triple_sq : string := "'''".

(** The inner loop [for j in range(i + 1, len(lines))] over the lines after
    the header; the result is [has_docstring] when the loop ends. *)
Fixpoint has_docstring_scan (rest : list string) : bool :=
  match rest with
  | [] => false
  | l :: rest' =>
      let next_line := strip l in
      if nonempty next_line && negb (startswith next_line " ")
         && negb (startswith next_line (str1 tab))
      then false
      else if startswith next_line triple_dq || startswith next_line triple_sq
      then true
      else has_docstring_scan rest'
  end.

Definition is_header (line : string) : bool :=
  let stripped := strip line in
  startswith stripped "def " || startswith stripped "class ".

(** The three lines appended after a header without docstring. *)
Definition placeholder (line : string) : list string :=
  let stripped := strip line in
  let indent := (String.length line - String.length (lstrip line))%nat in
  [ spaces indent ++ "    " ++ triple_dq;
    if startswith stripped "def "
    then spaces indent ++ "    Function description."
    else spaces indent ++ "    Class description.";
    spaces indent ++ "    " ++ triple_dq ].

(** The outer loop [for i, line in enumerate(lines)]: what it appends to
    [corrected_lines] from line [i] on. *)
Fixpoint correct_lines (lines : list string) : list string :=
  match lines with
  | [] => []
  | line :: rest =>
      (line ::
       (if is_header line && negb (has_docstring_scan rest)
        then placeholder line else [])
       ++ correct_lines rest)%list
  end.

Definition _generate_corrected_code (command : string) : string :=
  let lines := split_on nl command in
  join (str1 nl) (correct_lines lines).

(** ** The pattern tables of [analyze_command] *)

Definition dangerous_patterns : list (string * string * string) :=
  [ ("rm\s+-rf\s+/", "DANGER",
     "Using rm -rf on root directory can delete entire system");
    ("rm\s+-rf\s+\*", "DANGER",
     "Using rm -rf * can delete all files in current directory");
    ("rm\s+-rf\s+/home", "HIGH",
     "Deleting /home directory affects all user data");
    ("chmod\s+777\s+", "MEDIUM",
     "Setting permissions to 777 gives full access to everyone");
    ("sudo\s+.*rm\s+-rf", "CRITICAL",
     "Combining sudo with rm -rf is extremely dangerous");
    (">\s*/dev/sd[a-z]", "CRITICAL",
     "Writing to disk device can destroy partition");
    ("dd\s+if=.*of=/dev/sd[a-z]", "CRITICAL",
     "dd command can overwrite entire disks");
    ("curl\s+.*\|\s*bash", "HIGH",
     "Piping curl output to bash can execute malicious code");
    ("wget\s+.*\|\s*bash", "HIGH",
     "Piping wget output to bash can execute malicious code");
    ("ssh\s+.*-o\s+StrictHostKeyChecking=no", "MEDIUM",
     "Disabling host key checking is insecure");
    ("mysql\s+.*-p\s*[^-]", "MEDIUM",
     "Password in command line is visible in process list");
    ("psql\s+.*-W", "MEDIUM",
     "Password prompt might be insecure");
    ("find\s+.*-exec\s+rm", "MEDIUM",
     "find with -exec rm can be dangerous if not careful");
    ("chown\s+.*:\s*", "LOW",
     "Changing ownership - verify target is correct");
    ("mount\s+.*remount", "MEDIUM",
     "Remounting can affect system stability") ].

Definition best_practices : list (string * string) :=
  [ ("cp\s+.*\s+.*", "Consider using rsync for large file operations");
    ("tar\s+.*", "Consider using pigz for faster compression");
    ("grep\s+.*", "Consider using ripgrep (rg) for faster searching");
    ("find\s+.*", "Consider using fd for faster file finding");
    ("ls\s+-la", "Consider using exa or lsd for better output");
    ("cat\s+.*\|\s*grep", "Consider using grep directly on files");
    ("ps\s+aux", "Consider using htop or btop for better process monitoring") ].

(** The dictionary [common_typos], in insertion order. *)
Definition common_typos : list (string * string) :=
  [ ("gerp", "grep"); ("cd..", "cd .."); ("cd/", "cd /");
    ("ls-la", "ls -la"); ("ps-aux", "ps aux"); ("top|", "top |") ].

Definition package_words : list string :=
  [ "apt"; "yum"; "dnf"; "pacman"; "systemctl" ].

(** The [if]/[elif] chain that updates [risk_level] after a match of an
    entry whose tier is [risk]. *)
Definition escalate (risk risk_level : string) : string :=
  if risk =? "CRITICAL" then "CRITICAL"
  else if (risk =? "HIGH") && negb (risk_level =? "CRITICAL") then "HIGH"
  else if (risk =? "MEDIUM")
          && negb (existsb (String.eqb risk_level) ["CRITICAL"; "HIGH"])
  then "MEDIUM"
  else risk_level.

(** The four tiers of the risk scale, lowest first, and the position of a
    tier on it; a label that is not on the scale has no position. *)
Definition tiers : list string := [ "LOW"; "MEDIUM"; "HIGH"; "CRITICAL" ].

Definition tier_rank (t : string) : option nat :=
  if t =? "LOW" then Some 0
  else if t =? "MEDIUM" then Some 1
  else if t =? "HIGH" then Some 2
  else if t =? "CRITICAL" then Some 3
  else None.

Definition is_tier (t : string) : Prop := In t tiers.

(** [a] is at most [b] on the scale LOW < MEDIUM < HIGH < CRITICAL. *)
Definition tier_le (a b : string) : Prop :=
  match tier_rank a, tier_rank b with
  | Some x, Some y => x <= y
  | _, _ => False
  end.

(** The local variables of [analyze_command] that the checks update. *)
Record locals : Type := mk_locals {
  l_issues : list issue;
  l_suggestions : list string;
  l_risk_level : string
}.

Definition append_issue (i : issue) (st : locals) : locals :=
  mk_locals (l_issues st ++ [i])%list (l_suggestions st) (l_risk_level st).

Definition extend_issues (l : list issue) (st : locals) : locals :=
  mk_locals (l_issues st ++ l)%list (l_suggestions st) (l_risk_level st).

Definition append_suggestion (s : string) (st : locals) : locals :=
  mk_locals (l_issues st) (l_suggestions st ++ [s])%list (l_risk_level st).

Definition set_risk_level (r : string) (st : locals) : locals :=
  mk_locals (l_issues st) (l_suggestions st) r.

(** The level is on the scale and at least [z]. *)
Definition at_least (z : string) (st : locals) : Prop :=
  is_tier (l_risk_level st) /\ tier_le z (l_risk_level st).

(** The position used when tiers are compared: a label off the scale weighs
    as much as LOW. *)
Definition scale_rank (t : string) : nat :=
  match tier_rank t with Some n => n | None => 0 end.

(** The entry with pattern [text] matches the command: [re.search] with
    [re.IGNORECASE] finds something. *)
Definition fires (text command : string) : bool :=
  match Regex.search text command true with
  | Ok (Some _) => true
  | _ => false
  end.

(** The tier labels of the entries of [table] that match the command, in
    table order. *)
Definition matched_tiers_of (table : list (string * string * string))
           (command : string) : list string :=
  map (fun e : string * string * string => snd (fst e))
      (filter (fun e : string * string * string => fires (fst (fst e)) command)
              table).

Definition matched_tiers (command : string) : list string :=
  matched_tiers_of dangerous_patterns command.

(** The entries of [table] that match the command, and the dangerous-pattern
    entries that do. *)
Definition dangerous_hits_of (table : list (string * string * string))
           (command : string) : list (string * string * string) :=
  filter (fun e : string * string * string => fires (fst (fst e)) command)
         table.

Definition dangerous_hits (command : string) : list (string * string * string) :=
  dangerous_hits_of dangerous_patterns command.

(** The suggestions of the entries of the best-practice table that match the
    command. *)
Definition best_practice_hits_of (table : list (string * string))
           (command : string) : list string :=
  map snd (filter (fun e : string * string => fires (fst e) command) table).

Definition best_practice_hits (command : string) : list string :=
  best_practice_hits_of best_practices command.

(** The entries of the typo table whose text occurs in the command, and the
    issue reported for one. *)
Definition typo_hits_of (table : list (string * string))
           (command : string) : list (string * string) :=
  filter (fun e : string * string => contains (fst e) command) table.

Definition typo_hits (command : string) : list (string * string) :=
  typo_hits_of common_typos command.

Definition typo_issue (e : string * string) : issue :=
  mk_issue "TYPO" "LOW"
    ("Possible typo: " ++ fst e ++ " should be " ++ snd e) (fst e).

(** What identifies a SECURITY issue apart from the text it quotes. *)
Definition security_finding (i : issue) : string * string * string :=
  (i_type i, i_risk i, i_message i).

Local Open Scope py_scope.

Section WithParser.

(** [ast.parse] *)
Variable ast_parse : parser.

(** ** [_analyze_python_syntax] *)

Definition print_statement_re : string := "\bprint\s+\w+".

Definition print_unquoted_re : string :=
  "print\([^" ++ str1 dq ++ "\']*\w+[^" ++ str1 dq ++ "\']*\)".

Definition print_call_re : string := "print\([^)]+\)".

Definition print_statement_message : string :=
  "Python 3 requires parentheses for print statements: print("
    ++ str1 dq ++ "hello" ++ str1 dq ++ ")".

(** The body of the [try] block. *)
Definition python_syntax_checks (command : string) : M (list issue) unit :=
  _ <- lift (ast_parse command) ;;
  m <- lift (Regex.search print_statement_re command false) ;;
  when (is_some m)
    (l <- lift (Regex.findall print_statement_re command false) ;;
     part <- lift (index0 l) ;;
     modify (fun issues =>
       issues ++ [mk_issue "SYNTAX" "MEDIUM" print_statement_message part])%list) ;;;
  m <- lift (Regex.search print_unquoted_re command false) ;;
  when (is_some m)
    (l <- lift (Regex.findall print_call_re command false) ;;
     print_match <- lift (index0 l) ;;
     when (negb (contains (str1 dq) print_match
                 || contains (str1 sq) print_match))
       (modify (fun issues =>
          issues ++ [mk_issue "SYNTAX" "MEDIUM"
            "String literals in print statements should be enclosed in quotes"
            print_match])%list)).

(** The two [except] clauses: [SyntaxError] first, then any
    [Exception]. *)
Definition python_syntax_handler (command : string) (e : exn)
  : M (list issue) unit :=
  if is_SyntaxError e then
    modify (fun issues =>
      issues ++ [mk_issue "SYNTAX" "MEDIUM"
                   ("Syntax error: " ++ exn_str e) command])%list
  else
    modify (fun issues =>
      issues ++ [mk_issue "ERROR" "MEDIUM"
                   ("Python parsing error: " ++ exn_str e) command])%list.

Definition _analyze_python_syntax (command : string) : result (list issue) :=
  match try_except (python_syntax_checks command) any_Exception
                   (python_syntax_handler command) [] with
  | (issues, Ok _) => Ok issues
  | (_, Raise e) => Raise e
  end.

(** ** [analyze_command] *)

(** Lines 24-28: the embedded-Python path. *)
Definition python_path (command : string) : M locals unit :=
  when (_looks_like_python command)
    (python_issues <- lift (_analyze_python_syntax command) ;;
     modify (extend_issues python_issues) ;;;
     when (match python_issues with [] => false | _ => true end)
       (modify (set_risk_level "MEDIUM"))).

(** Lines 61-74: one turn of the loop over [dangerous_patterns]. *)
Definition dangerous_step (command : string)
           (entry : string * string * string) : M locals unit :=
  let '(pattern, risk, message) := entry in
  m <- lift (Regex.search pattern command true) ;;
  when (is_some m)
    (l <- lift (Regex.findall pattern command true) ;;
     part <- lift (index0 l) ;;
     modify (append_issue (mk_issue "SECURITY" risk message part)) ;;;
     modify (fun st => set_risk_level (escalate risk (l_risk_level st)) st)).

(** Lines 77-79: one turn of the loop over [best_practices]. *)
Definition best_practice_step (command : string)
           (entry : string * string) : M locals unit :=
  let '(pattern, suggestion) := entry in
  m <- lift (Regex.search pattern command true) ;;
  when (is_some m) (modify (append_suggestion suggestion)).

(** Lines 82-90: the three heuristic checks. *)
Definition heuristic_checks (command : string) : M locals unit :=
  when (contains "sudo" (lower command))
    (when (negb (existsb (fun word => contains word (lower command))
                         package_words))
       (modify (append_suggestion
                  "Verify if sudo is necessary for this command"))) ;;;
  when (contains "|" command)
    (modify (append_suggestion
       "Consider breaking complex piped commands into separate steps for clarity")) ;;;
  when (10 <? List.length (split_ws command))%nat
    (modify (append_suggestion
       "Command is quite long - consider using a script for complex operations")).

(** Lines 102-109: one turn of the loop over [common_typos]. *)
Definition typo_step (command : string) (entry : string * string)
  : M locals unit :=
  let '(typo, correction) := entry in
  when (contains typo command)
    (modify (append_issue
       (mk_issue "TYPO" "LOW"
          ("Possible typo: " ++ typo ++ " should be " ++ correction)
          typo))).

(** Lines 60-109: the checks driven by the tables, in the order of the
    source. *)
Definition table_checks (command : string) : M locals unit :=
  for_each dangerous_patterns (dangerous_step command) ;;;
  for_each best_practices (best_practice_step command) ;;;
  heuristic_checks command ;;;
  for_each common_typos (typo_step command).

(** All the checks: the embedded-Python path first. *)
Definition run_checks (command : string) : M locals unit :=
  python_path command ;;;
  table_checks command.

Definition initial_locals : locals := mk_locals [] [] "LOW".

Definition analyze_command (command : string) : result analysis :=
  match run_checks command initial_locals with
  | (st, Ok _) =>
      let is_code := _looks_like_python command in
      let corrected_code :=
        if is_code then _generate_corrected_code command else EmptyString in
      Ok (mk_analysis command (l_issues st) (l_suggestions st)
            (l_risk_level st) (List.length (l_issues st))
            (List.length (l_suggestions st)) is_code corrected_code)
  | (_, Raise e) => Raise e
  end.

End WithParser.

End CommandAnalyzer.

(* ===================================================================== *)
(** * analyzer.py *)
(* ===================================================================== *)

Module Analyzer.

Import PyStr.

(** An entry of the [issues] list of a code analysis. *)
Record issue : Type := mk_issue {
  i_type : string;
  i_message : string;
  i_line : option Z
}.

(** One element of the list decoded from the output of [pylint]. *)
Record lint_finding : Type := mk_finding {
  f_type : string;
  f_message : string;
  f_line : Z
}.

(** A block reported by [radon_complexity.cc_visit]. *)
Record cc_block : Type := mk_block {
  b_name : string;
  b_complexity : Z;
  b_lineno : Z
}.

(** What [analyze_code] obtains from outside itself. *)
Record world : Type := mk_world {
  (** [subprocess.run([...])] then [json.loads(result.stdout)]: the
      elements of the decoded list in order, each one the three fields read
      from it or the exception raised by reading them. *)
  run_pylint : string -> result (list (result lint_finding));
  (** [open(filepath, 'r')] then [f.read()] *)
  read_text : string -> result string;
  (** [radon_complexity.cc_visit(code)] *)
  cc_visit : string -> result (list cc_block);
  (** [radon_metrics.raw_metrics(code).loc] *)
  raw_loc : string -> result Z;
  (** [ast.parse(code)] *)
  ast_parse : parser;
  (** [open(filepath, 'r', encoding='utf-8')] then [f.read().splitlines()] *)
  read_lines : string -> result (list string)
}.

(** The dictionary returned by [analyze_code]. *)
Record analysis : Type := mk_analysis {
  filename : string;
  issues : list issue;
  score : Z;
  suggestions : list string;
  code_lines : list string;
  line_suggestions : list (Z * list string)
}.

(** The local variables of [analyze_code] that the checks update; [l_code]
    is [None] as long as [code] has not been assigned. *)
Record locals : Type := mk_locals {
  l_issues : list issue;
  l_suggestions : list string;
  l_score : Z;
  l_code : option string
}.

Definition append_issue (i : issue) (st : locals) : locals :=
  mk_locals (l_issues st ++ [i])%list (l_suggestions st) (l_score st) (l_code st).

Definition append_suggestion (s : string) (st : locals) : locals :=
  mk_locals (l_issues st) (l_suggestions st ++ [s])%list (l_score st) (l_code st).

(** [score -= n] *)
Definition deduct (n : Z) (st : locals) : locals :=
  mk_locals (l_issues st) (l_suggestions st) (l_score st - n)%Z (l_code st).

Definition set_code (c : string) (st : locals) : locals :=
  mk_locals (l_issues st) (l_suggestions st) (l_score st) (Some c).

Definition set_score (z : Z) (st : locals) : locals :=
  mk_locals (l_issues st) (l_suggestions st) z (l_code st).

(** The score is at most [z]. *)
Definition score_at_most (z : Z) (st : locals) : Prop := (l_score st <= z)%Z.

(** The score is at most 100, and it is 100 as long as no issue has been
    recorded. *)
Definition full_marks_unless_issue (st : locals) : Prop :=
  (l_score st <= 100)%Z /\ (l_issues st = [] -> l_score st = 100%Z).

(** The score is at most 100 and an issue has been recorded. *)
Definition issue_recorded (st : locals) : Prop :=
  (l_score st <= 100)%Z /\ l_issues st <> [].

(** The variable [code] has not been assigned. *)
Definition code_unbound (st : locals) : Prop := l_code st = None.

(** The variable [code] holds the text [code]. *)
Definition code_bound_to (code : string) (st : locals) : Prop :=
  l_code st = Some code.

(** The text of the [UnboundLocalError] for [code]. *)
Definition unbound_code_message : string :=
  "cannot access local variable 'code' where it is not associated with a value".

(** [os.path.basename]: what follows the last slash. *)
Fixpoint basename (p : string) : string :=
  match p with
  | EmptyString => EmptyString
  | String c rest =>
      if contains "/" rest then basename rest
      else if Ascii.eqb c "/" then rest else p
  end.

Local Open Scope py_scope.

Section WithWorld.

Variable w : world.

(** The points deducted for a finding of [pylint]. *)
Definition lint_penalty (type : string) : Z :=
  if type =? "error" then 10%Z
  else if type =? "warning" then 5%Z
  else 2%Z.

(** Lines 14-32. *)
Definition lint_check (filepath : string) : M locals unit :=
  try_except
    (pylint_output <- lift (run_pylint w filepath) ;;
     for_each pylint_output (fun entry =>
       f <- lift entry ;;
       modify (append_issue
                 (mk_issue (f_type f) (f_message f) (Some (f_line f)))) ;;;
       modify (deduct (lint_penalty (f_type f)))))
    any_Exception
    (fun e => modify (append_issue
       (mk_issue "error" ("Pylint failed: " ++ exn_str e) (Some 0%Z)))).

(** Lines 35-56. *)
Definition complexity_check (filepath : string) : M locals unit :=
  try_except
    (code <- lift (read_text w filepath) ;;
     modify (set_code code) ;;;
     complexity <- lift (cc_visit w code) ;;
     for_each complexity (fun func =>
       when (10 <? b_complexity func)%Z
         (modify (append_issue
            (mk_issue "warning"
               ("High complexity in " ++ b_name func ++ ": "
                  ++ str_of_Z (b_complexity func))
               (Some (b_lineno func)))) ;;;
          modify (deduct 5) ;;;
          modify (append_suggestion
            ("Refactor " ++ b_name func ++ " to reduce complexity")))) ;;;
     loc <- lift (raw_loc w code) ;;
     when (100 <? loc)%Z
       (modify (append_issue
          (mk_issue "info"
             ("File is quite long: " ++ str_of_Z loc ++ " lines")
             (Some 0%Z))) ;;;
        modify (deduct 5) ;;;
        modify (append_suggestion
          "Consider breaking down the file into smaller modules")))
    any_Exception
    (fun e => modify (append_issue
       (mk_issue "error" ("Complexity analysis failed: " ++ exn_str e)
          (Some 0%Z)))).

(** Reading the local variable [code]. *)
Definition read_code : M locals string :=
  st <- get ;;
  match l_code st with
  | Some code => ret code
  | None =>
      raise (UnboundLocalError unbound_code_message)
  end.

(** The test of line 63 on the name of a function definition. *)
Definition bad_function_name (name : string) : bool :=
  negb (islower name) || negb (contains "_" name).

(** The body of the loop over [ast.walk(tree)]. *)
Definition naming_step (node : ast_node) : M locals unit :=
  match node with
  | FunctionDef name lineno =>
      when (bad_function_name name)
        (modify (append_issue
           (mk_issue "warning"
              ("Function name " ++ name
                 ++ " does not follow snake_case convention")
              (Some lineno))) ;;;
         modify (deduct 2) ;;;
         modify (append_suggestion
           ("Rename " ++ name ++ " to follow snake_case")))
  | ClassDef name lineno =>
      when (negb (istitle name))
        (modify (append_issue
           (mk_issue "warning"
              ("Class name " ++ name
                 ++ " does not follow PascalCase convention")
              (Some lineno))) ;;;
         modify (deduct 2) ;;;
         modify (append_suggestion
           ("Rename " ++ name ++ " to follow PascalCase")))
  | OtherNode => ret tt
  end.

Definition syntax_error_lineno (e : exn) : option Z :=
  match e with SyntaxError _ l => l | _ => None end.

(** Lines 59-82: only [SyntaxError] is caught. *)
Definition naming_check : M locals unit :=
  try_except
    (code <- read_code ;;
     nodes <- lift (ast_parse w code) ;;
     for_each nodes naming_step)
    is_SyntaxError
    (fun e =>
       modify (append_issue
         (mk_issue "error" ("Syntax error: " ++ exn_str e)
            (syntax_error_lineno e))) ;;;
       modify (deduct 20)).

(** Lines 87-91. *)
Definition capture_lines (filepath : string) : list string :=
  match read_lines w filepath with
  | Ok l => l
  | Raise _ => []
  end.

(** The three checks in the order of the source, then line 84. *)
Definition run_checks (filepath : string) : M locals unit :=
  lint_check filepath ;;;
  complexity_check filepath ;;;
  naming_check ;;;
  modify (fun st => set_score (Z.max 0 (l_score st)) st).

Definition initial_locals : locals := mk_locals [] [] 100%Z None.

Definition analyze_code (filepath : string) : result analysis :=
  match run_checks filepath initial_locals with
  | (st, Ok _) =>
      Ok (mk_analysis (basename filepath) (l_issues st) (l_score st)
            (l_suggestions st) (capture_lines filepath) [])
  | (_, Raise e) => Raise e
  end.

End WithWorld.

End Analyzer.

(* ===================================================================== *)
(** * What the two engines leave observable *)
(* ===================================================================== *)

Module Observe.

Import PyStr.

(** The number of lines of a text, and the number of its lines that are a
    [def] or [class] header for the corrector. *)
Definition line_count (text : string) : nat :=
  List.length (split_on nl text).

Definition header_count (text : string) : nat :=
  List.length (filter CommandAnalyzer.is_header (split_on nl text)).

(** A line without newline character. *)
Definition nl_free (line : string) : Prop := has_char nl line = false.

(** The three suggestions of the heuristic checks of [analyze_command]. *)
Definition heuristic_texts : list string :=
  [ "Verify if sudo is necessary for this command";
    "Consider breaking complex piped commands into separate steps for clarity";
    "Command is quite long - consider using a script for complex operations" ].

(** An issue of the Syntax & Style Checker: MEDIUM, of kind SYNTAX or
    ERROR. *)
Definition checker_issue (i : CommandAnalyzer.issue) : Prop :=
  CommandAnalyzer.i_risk i = "MEDIUM" /\
  (CommandAnalyzer.i_type i = "SYNTAX" \/ CommandAnalyzer.i_type i = "ERROR").

(** The local variables of [analyze_code] with the issues [pre] recorded
    before all others. *)
Definition prepend_issues (pre : list Analyzer.issue) (st : Analyzer.locals)
  : Analyzer.locals :=
  Analyzer.mk_locals (pre ++ Analyzer.l_issues st)%list
    (Analyzer.l_suggestions st) (Analyzer.l_score st) (Analyzer.l_code st).

(** A computation of [analyze_code] that appends to the issues without
    reading them. *)
Definition framed {A} (m : M Analyzer.locals A) : Prop :=
  forall pre st,
    m (prepend_issues pre st) = (prepend_issues pre (fst (m st)), snd (m st)).

(** The world [w] with another answer of [pylint]. *)
Definition with_lint (w : Analyzer.world)
           (lint : string -> result (list (result Analyzer.lint_finding)))
  : Analyzer.world :=
  Analyzer.mk_world lint (Analyzer.read_text w) (Analyzer.cc_visit w)
    (Analyzer.raw_loc w) (Analyzer.ast_parse w) (Analyzer.read_lines w).

(** A node of the tree that the naming walk passes without a report. *)
Definition well_named (node : ast_node) : bool :=
  match node with
  | FunctionDef name _ => negb (Analyzer.bad_function_name name)
  | ClassDef name _ => istitle name
  | OtherNode => true
  end.

End Observe.

(* ===================================================================== *)
(** * cli.py *)
(* ===================================================================== *)

Module Cli.

Import PyStr.

(** Lines 195-203 of [generate_corrected_code]: one turn of the loop over the
    issues; every branch is [pass]. *)
Definition review_issue (corrected_code : string) (issue : Analyzer.issue)
  : string :=
  let message := Analyzer.i_message issue in
  if contains "snake_case" (lower message) then
    if contains "Function name" message then corrected_code
    else corrected_code
  else if contains "PascalCase" (lower message) then corrected_code
  else corrected_code.

(** [generate_corrected_code]; lines 206-234 are those of
    [_generate_corrected_code] in command_analyzer.py, character for
    character. *)
Definition generate_corrected_code (original_code : string)
           (analysis_result : Analyzer.analysis) : string :=
  let corrected_code :=
    fold_left review_issue (Analyzer.issues analysis_result) original_code in
  let lines := split_on nl corrected_code in
  join (str1 nl) (CommandAnalyzer.correct_lines lines).

(** Lines 148-152 of [execute_code_cli]: what is printed under the heading
    of the suggested corrections. *)
Definition suggested_corrections (code : string)
           (analysis_result : Analyzer.analysis) : string :=
  let corrected_code := generate_corrected_code code analysis_result in
  if negb (corrected_code =? code) then corrected_code
  else "No corrections needed - code follows best practices!".

(** Lines 126-152 of [execute_code_cli], from the call of [analyze_code] on
    the temporary file to the text printed under the heading of the
    suggested corrections; an exception of [analyze_code] leaves the [try]
    block through its [finally] clause. *)
Definition corrections_section (w : Analyzer.world) (temp_file code : string)
  : result string :=
  match Analyzer.analyze_code w temp_file with
  | Ok analysis_result => Ok (suggested_corrections code analysis_result)
  | Raise e => Raise e
  end.

End Cli.

(* ===================================================================== *)
(** * app.py *)
(* ===================================================================== *)

Module App.

Import PyStr.

(** What a view returns: a JSON error with its status, or a rendered
    template with its argument. *)
Inductive response : Type :=
| JsonError (error : string) (status : nat)
| CommandResults (result : CommandAnalyzer.analysis)
| InteractiveReview (result : Analyzer.analysis)
| Results (results : list Analyzer.analysis).

(** The two keys the views keep in the Flask session. *)
Record session : Type := mk_session {
  last_analysis_results : option (list Analyzer.analysis);
  last_command_analysis : option CommandAnalyzer.analysis
}.

(** [analyze_command_route]; [form_command] is the form field [command],
    [None] when the form has no such field. *)
Definition analyze_command_route (ast_parse : parser)
           (form_command : option string) (s : session)
  : result (response * session) :=
  let command :=
    strip (match form_command with Some c => c | None => EmptyString end) in
  if negb (CommandAnalyzer.nonempty command)
  then Ok (JsonError "No command provided" 400, s)
  else
    match CommandAnalyzer.analyze_command ast_parse command with
    | Ok result =>
        Ok (CommandResults result,
            mk_session (last_analysis_results s) (Some result))
    | Raise e => Raise e
    end.

(** What [upload] obtains from outside: [os.path.join] with the upload
    folder, [file.save] on the joined path, and the answers to
    [analyze_code] for the files once they are saved. *)
Record upload_env : Type := mk_upload_env {
  upload_path : string -> string;
  save : string -> result unit;
  saved_world : Analyzer.world
}.

(** The loop of [upload] over the names of the uploaded files, [results]
    being the list built so far. *)
Fixpoint analyze_uploads (env : upload_env) (files : list string)
         (results : list Analyzer.analysis)
  : result (list Analyzer.analysis) :=
  match files with
  | [] => Ok results
  | filename :: rest =>
      if CommandAnalyzer.nonempty filename && endswith filename ".py" then
        let filepath := upload_path env filename in
        match save env filepath with
        | Ok _ =>
            match Analyzer.analyze_code (saved_world env) filepath with
            | Ok r => analyze_uploads env rest (results ++ [r])%list
            | Raise e => Raise e
            end
        | Raise e => Raise e
        end
      else analyze_uploads env rest results
  end.

(** [upload]; [files] holds the names of the files of the request. *)
Definition upload (env : upload_env) (files : list string) (s : session)
  : result (response * session) :=
  match files with
  | [] => Ok (JsonError "No files uploaded" 400, s)
  | first :: _ =>
      if first =? EmptyString
      then Ok (JsonError "No files uploaded" 400, s)
      else
        match analyze_uploads env files [] with
        | Ok results =>
            let s' := mk_session (Some results) (last_command_analysis s) in
            match results with
            | [r] => Ok (InteractiveReview r, s')
            | _ => Ok (Results results, s')
            end
        | Raise e => Raise e
        end
  end.

End App.

(* ===================================================================== *)
(** * Concrete inputs used below *)
(* ===================================================================== *)

Module Examples.

Import PyStr.

(** A parser that accepts every source and finds no definition in it. *)
Definition accepting_parser : parser := fun _ => Ok [].

(** A parser that rejects every source. *)
Definition rejecting_parser : parser :=
  fun _ => Raise (SyntaxError "invalid syntax (<unknown>, line 1)" (Some 1%Z)).

(** A function whose body begins with a docstring:
<<
def f():
    '''Doc.'''      (with double quotes)
    pass
>> *)
Definition documented_def : string :=
  "def f():" ++ str1 nl
  ++ "    " ++ CommandAnalyzer.triple_dq ++ "Doc." ++ CommandAnalyzer.triple_dq
  ++ str1 nl ++ "    pass".

(** What the corrector returns for it. *)
Definition documented_def_corrected : string :=
  "def f():" ++ str1 nl
  ++ "    " ++ CommandAnalyzer.triple_dq ++ str1 nl
  ++ "    Function description." ++ str1 nl
  ++ "    " ++ CommandAnalyzer.triple_dq ++ str1 nl
  ++ "    " ++ CommandAnalyzer.triple_dq ++ "Doc." ++ CommandAnalyzer.triple_dq
  ++ str1 nl ++ "    pass".

(** A file [main.py] holding
<<
def main():
    pass
>>
    on which [pylint] reports nothing. *)
Definition main_source : string :=
  "def main():" ++ str1 nl ++ "    pass" ++ str1 nl.

Definition main_world : Analyzer.world :=
  Analyzer.mk_world
    (fun _ => Ok [])
    (fun _ => Ok main_source)
    (fun _ => Ok [Analyzer.mk_block "main" 1 1])
    (fun _ => Ok 2%Z)
    (fun _ => Ok [OtherNode; FunctionDef "main" 1; OtherNode; OtherNode])
    (fun _ => Ok ["def main():"; "    pass"]).

(** The same file with the function named [MyFunc]. *)
Definition myfunc_source : string :=
  "def MyFunc():" ++ str1 nl ++ "    pass" ++ str1 nl.

Definition myfunc_world : Analyzer.world :=
  Analyzer.mk_world
    (fun _ => Ok [])
    (fun _ => Ok myfunc_source)
    (fun _ => Ok [Analyzer.mk_block "MyFunc" 1 1])
    (fun _ => Ok 2%Z)
    (fun _ => Ok [OtherNode; FunctionDef "MyFunc" 1; OtherNode; OtherNode])
    (fun _ => Ok ["def MyFunc():"; "    pass"]).

(** The same file with the function named [my_func]: nothing to report. *)
Definition clean_world : Analyzer.world :=
  Analyzer.mk_world
    (fun _ => Ok [])
    (fun _ => Ok ("def my_func():" ++ str1 nl ++ "    pass" ++ str1 nl))
    (fun _ => Ok [Analyzer.mk_block "my_func" 1 1])
    (fun _ => Ok 2%Z)
    (fun _ => Ok [OtherNode; FunctionDef "my_func" 1; OtherNode; OtherNode])
    (fun _ => Ok ["def my_func():"; "    pass"]).

(** A path that cannot be opened; [pylint] reports the file as fatal. *)
Definition no_such_file : exn :=
  OSError "[Errno 2] No such file or directory: 'missing.py'".

Definition unreadable_world : Analyzer.world :=
  Analyzer.mk_world
    (fun _ => Ok [Ok (Analyzer.mk_finding "fatal"
                        "No module named missing.py" 1)])
    (fun _ => Raise no_such_file)
    (fun _ => Ok [])
    (fun _ => Ok 0%Z)
    (fun _ => Ok [])
    (fun _ => Raise no_such_file).

(** A readable file on which [ast.parse] raises [ValueError]. *)
Definition null_byte_error : exn :=
  OtherException "source code string cannot contain null bytes".

Definition null_byte_world : Analyzer.world :=
  Analyzer.mk_world
    (fun _ => Ok [])
    (fun _ => Ok (String "000" EmptyString))
    (fun _ => Raise null_byte_error)
    (fun _ => Ok 1%Z)
    (fun _ => Raise null_byte_error)
    (fun _ => Ok [String "000" EmptyString]).

(** The file of [clean_world] when the call for the raw metrics raises
    [AttributeError]. *)
Definition no_raw_metrics : exn :=
  OtherException "module 'radon.metrics' has no attribute 'raw_metrics'".

Definition no_raw_metrics_world : Analyzer.world :=
  Analyzer.mk_world
    (fun _ => Ok [])
    (fun _ => Ok ("def my_func():" ++ str1 nl ++ "    pass" ++ str1 nl))
    (fun _ => Ok [Analyzer.mk_block "my_func" 1 1])
    (fun _ => Raise no_raw_metrics)
    (fun _ => Ok [OtherNode; FunctionDef "my_func" 1; OtherNode; OtherNode])
    (fun _ => Ok ["def my_func():"; "    pass"]).

(** The temporary file that holds the code [print(1)]. *)
Definition print_world : Analyzer.world :=
  Analyzer.mk_world
    (fun _ => Ok [])
    (fun _ => Ok "print(1)")
    (fun _ => Ok [])
    (fun _ => Raise no_raw_metrics)
    (fun _ => Ok [OtherNode; OtherNode; OtherNode; OtherNode; OtherNode;
                  OtherNode])
    (fun _ => Ok ["print(1)"]).

End Examples.

(* ===================================================================== *)
(** * Reasoning about [try] blocks and loops *)
(* ===================================================================== *)

Module MonadFacts.

Section Preservation.

Context {S : Type}.
Variable P : S -> Prop.

Lemma preserves_ret {A} (a : A) : preserves P (ret (S:=S) a).
Proof. intros s H; exact H. Qed.

Lemma preserves_raise {A} e : preserves P (raise (S:=S) (A:=A) e).
Proof. intros s H; exact H. Qed.

Lemma preserves_lift {A} (r : result A) : preserves P (lift (S:=S) r).
Proof. intros s H; exact H. Qed.

Lemma preserves_get : preserves P (get (S:=S)).
Proof. intros s H; exact H. Qed.

Lemma preserves_modify (f : S -> S) :
  (forall s, P s -> P (f s)) -> preserves P (modify f).
Proof. intros Hf s H; simpl; auto. Qed.

Lemma preserves_bind {A B} (m : M S A) (k : A -> M S B) :
  preserves P m -> (forall a, preserves P (k a)) -> preserves P (bind m k).
Proof.
  intros Hm Hk s H. unfold bind.
  specialize (Hm s H). destruct (m s) as [s' [a|e]]; simpl in *.
  - apply Hk; assumption.
  - assumption.
Qed.

Lemma preserves_try {A} (body : M S A) catches handler :
  preserves P body -> (forall e, preserves P (handler e)) ->
  preserves P (try_except body catches handler).
Proof.
  intros Hb Hh s H. unfold try_except.
  specialize (Hb s H). destruct (body s) as [s' [a|e]]; simpl in *.
  - assumption.
  - destruct (catches e); [apply Hh|]; assumption.
Qed.

Lemma preserves_when b (body : M S unit) :
  preserves P body -> preserves P (when b body).
Proof. intros Hb; destruct b; simpl; [assumption | apply preserves_ret]. Qed.

Lemma preserves_for_each {X} (l : list X) (body : X -> M S unit) :
  (forall x, In x l -> preserves P (body x)) ->
  preserves P (for_each l body).
Proof.
  induction l as [|x rest IH]; intros Hb; simpl.
  - apply preserves_ret.
  - apply preserves_bind.
    + apply Hb; left; reflexivity.
    + intros _. apply IH. intros y Hy. apply Hb; right; assumption.
Qed.

End Preservation.

Section Totality.

Context {S : Type}.

Lemma no_raise_ret {A} (a : A) : no_raise (ret (S:=S) a).
Proof. intros s; exists a; reflexivity. Qed.

Lemma no_raise_modify (f : S -> S) : no_raise (modify f).
Proof. intros s; exists tt; reflexivity. Qed.

Lemma no_raise_lift_ok {A} (a : A) : no_raise (lift (S:=S) (Ok a)).
Proof. intros s; exists a; reflexivity. Qed.

Lemma no_raise_bind {A B} (m : M S A) (k : A -> M S B) :
  no_raise m -> (forall a, no_raise (k a)) -> no_raise (bind m k).
Proof.
  intros Hm Hk s. unfold bind.
  destruct (Hm s) as [a Ha]. destruct (m s) as [s' r]; simpl in Ha; subst r.
  apply Hk.
Qed.

Lemma no_raise_when b (body : M S unit) :
  no_raise body -> no_raise (when b body).
Proof. intros Hb; destruct b; simpl; [assumption | apply no_raise_ret]. Qed.

Lemma no_raise_for_each {X} (l : list X) (body : X -> M S unit) :
  (forall x, In x l -> no_raise (body x)) -> no_raise (for_each l body).
Proof.
  induction l as [|x rest IH]; intros Hb; simpl.
  - apply no_raise_ret.
  - apply no_raise_bind.
    + apply Hb; left; reflexivity.
    + intros _. apply IH. intros y Hy. apply Hb; right; assumption.
Qed.

(** A [try] whose handlers accept every exception and do not raise
    themselves never raises. *)
Lemma no_raise_try_all {A} (body : M S A) catches handler :
  (forall e, catches e = true) -> (forall e, no_raise (handler e)) ->
  no_raise (try_except body catches handler).
Proof.
  intros Hc Hh s. unfold try_except.
  destruct (body s) as [s' [a|e]]; simpl.
  - exists a; reflexivity.
  - rewrite Hc. apply Hh.
Qed.

Lemma no_raise_run {A} (m : M S A) s :
  no_raise m -> exists s' a, m s = (s', Ok a).
Proof.
  intros H. destruct (H s) as [a Ha].
  destruct (m s) as [s' r]; simpl in Ha; subst r. eauto.
Qed.

(** When the loop body establishes [Q] at one element from any state with
    [I], never raises and keeps [I] and [Q] at the others, [Q] holds after
    the loop. *)
Lemma for_each_reaches {X} (I Q : S -> Prop) (l : list X)
      (body : X -> M S unit) (x : X) :
  In x l ->
  (forall y, In y l -> no_raise (body y)) ->
  (forall y, In y l -> preserves I (body y)) ->
  (forall y, In y l -> preserves Q (body y)) ->
  (forall s, I s -> Q (fst (body x s))) ->
  forall s, I s -> Q (fst (for_each l body s)).
Proof.
  induction l as [|y rest IH]; intros Hin Hnr Hi Hp Hx s Hs; [contradiction|].
  simpl. unfold bind.
  destruct (no_raise_run s (Hnr y (or_introl eq_refl))) as (s' & [] & Hrun).
  rewrite Hrun.
  assert (I s') as Hs'.
  { pose proof (Hi y (or_introl eq_refl) s Hs) as H. rewrite Hrun in H.
    exact H. }
  destruct Hin as [->|Hin].
  - apply MonadFacts.preserves_for_each.
    + intros z Hz. apply Hp. right; assumption.
    + specialize (Hx s Hs). rewrite Hrun in Hx. exact Hx.
  - apply IH; auto.
    + intros z Hz. apply Hnr. right; assumption.
    + intros z Hz. apply Hi. right; assumption.
    + intros z Hz. apply Hp. right; assumption.
Qed.

(** Running [bind] when the first computation returns. *)
Lemma bind_ok {A B} (m : M S A) (k : A -> M S B) s s' a :
  m s = (s', Ok a) -> bind m k s = k a s'.
Proof. intros H; unfold bind; rewrite H; reflexivity. Qed.

Lemma bind_raise {A B} (m : M S A) (k : A -> M S B) s s' e :
  m s = (s', Raise e) -> bind m k s = (s', Raise e).
Proof. intros H; unfold bind; rewrite H; reflexivity. Qed.

End Totality.

End MonadFacts.

(* ===================================================================== *)
(** * Facts about the matcher *)
(* ===================================================================== *)

Module RegexFacts.

Import PyStr Regex.

(** The first element of [findall] is the match [search] returns. *)
Lemma findall_from_search ic p :
  forall s prev n m,
    String.length s <= n ->
    search_from ic p prev s = Some m ->
    exists l, findall_from (S n) ic p prev s = (m :: l)%list.
Proof.
  induction s as [|c s' IH]; intros prev n m Hn Hs.
  - simpl in *. destruct (match_here ic p prev EmptyString) as [rest|].
    + inversion Hs; subst. eexists; reflexivity.
    + discriminate.
  - cbn [search_from] in Hs. cbn [findall_from].
    destruct (match_here ic p prev (String c s')) as [rest|].
    + inversion Hs; subst. eexists; reflexivity.
    + simpl in Hn. destruct n as [|n']; [lia|].
      apply IH; [lia | assumption].
Qed.

Lemma search_findall text s ic m :
  search text s ic = Ok (Some m) ->
  exists l, findall text s ic = Ok (m :: l)%list.
Proof.
  unfold search, findall. destruct (compile text) as [p|e]; [|discriminate].
  intros H. inversion H as [H'].
  destruct (findall_from_search ic p s None (n:=String.length s) (le_n _) H')
    as [l Hl].
  exists l. rewrite Hl. reflexivity.
Qed.

Lemma search_ok text p s ic :
  compile text = Ok p -> search text s ic = Ok (search_from ic p None s).
Proof. intros H; unfold search; rewrite H; reflexivity. Qed.

(** ** Letter case of the subject under [re.IGNORECASE] *)

Lemma all_chars_complete a : In a all_chars.
Proof.
  unfold all_chars. rewrite <- (ascii_nat_embedding a).
  apply in_map. apply in_seq. pose proof (nat_ascii_bounded a). lia.
Qed.

(** Two characters with the same lowercase form are in the same classes. *)
Lemma lower_char_classes a b :
  lower_char a = lower_char b ->
  isspace a = isspace b /\ isword a = isword b
  /\ Ascii.eqb a nl = Ascii.eqb b nl.
Proof.
  assert (forallb (fun a =>
            forallb (fun b =>
              implb (Ascii.eqb (lower_char a) (lower_char b))
                    (Bool.eqb (isspace a) (isspace b)
                     && Bool.eqb (isword a) (isword b)
                     && Bool.eqb (Ascii.eqb a nl) (Ascii.eqb b nl)))
              all_chars) all_chars = true) as H
      by (vm_compute; reflexivity).
  rewrite forallb_forall in H. specialize (H a (all_chars_complete a)).
  rewrite forallb_forall in H. specialize (H b (all_chars_complete b)).
  intros E. rewrite E, Ascii.eqb_refl in H. cbn [implb] in H.
  apply andb_true_iff in H. destruct H as [H H3].
  apply andb_true_iff in H. destruct H as [H1 H2].
  repeat split; apply Bool.eqb_prop; assumption.
Qed.

Lemma cset_match_case cs a b :
  lower_char a = lower_char b -> cset_match true cs a = cset_match true cs b.
Proof.
  intros E. destruct (@lower_char_classes a b E) as (Hs & Hw & Hn).
  destruct cs; cbn [cset_match]; rewrite ?E, ?Hs, ?Hw, ?Hn; reflexivity.
Qed.

Lemma lower_cons a s b s' :
  lower (String a s) = lower (String b s') ->
  lower_char a = lower_char b /\ lower s = lower s'.
Proof. cbn [lower]. intros H. inversion H. auto. Qed.

Lemma is_word_opt_case a b :
  lower_char a = lower_char b ->
  is_word_opt (Some a) = is_word_opt (Some b).
Proof. intros E. apply (@lower_char_classes a b E). Qed.

Lemma at_boundary_case prev prev' s s' :
  is_word_opt prev = is_word_opt prev' -> lower s = lower s' ->
  at_boundary prev s = at_boundary prev' s'.
Proof.
  intros Hp Hl. unfold at_boundary. rewrite Hp. f_equal.
  destruct s as [|a s], s' as [|b s']; try discriminate; [reflexivity|].
  apply lower_cons in Hl. apply is_word_opt_case. apply Hl.
Qed.

Section CaseBlind.

Variable f : ascii -> bool.
Hypothesis f_case : forall a b, lower_char a = lower_char b -> f a = f b.

Variables k k' : option ascii -> string -> option string.
Hypothesis k_case :
  forall prev prev' s s',
    is_word_opt prev = is_word_opt prev' -> lower s = lower s' ->
    is_some (k prev s) = is_some (k' prev' s').

Lemma greedy_case :
  forall s s' prev prev',
    is_word_opt prev = is_word_opt prev' -> lower s = lower s' ->
    is_some (greedy f k prev s) = is_some (greedy f k' prev' s').
Proof.
  induction s as [|a s IH]; intros s' prev prev' Hp Hl;
    destruct s' as [|b s']; try discriminate.
  - cbn [greedy]. apply k_case; assumption.
  - cbn [greedy]. destruct (@lower_cons _ _ _ _ Hl) as [Hab Hl'].
    rewrite (f_case _ _ Hab). destruct (f b); [|apply k_case; assumption].
    specialize (IH s' (Some a) (Some b) (@is_word_opt_case _ _ Hab) Hl').
    destruct (greedy f k (Some a) s), (greedy f k' (Some b) s');
      try discriminate; [reflexivity | apply k_case; assumption].
Qed.

End CaseBlind.

Lemma match_here_case p :
  forall prev prev' s s',
    is_word_opt prev = is_word_opt prev' -> lower s = lower s' ->
    is_some (match_here true p prev s) = is_some (match_here true p prev' s').
Proof.
  induction p as [|[cs q|] p IH]; intros prev prev' s s' Hp Hl.
  - reflexivity.
  - destruct q; cbn [match_here].
    + destruct s as [|a s], s' as [|b s']; try discriminate; [reflexivity|].
      destruct (@lower_cons _ _ _ _ Hl) as [Hab Hl'].
      rewrite (@cset_match_case cs _ _ Hab).
      destruct (cset_match true cs b); [|reflexivity].
      apply IH; [apply is_word_opt_case|]; assumption.
    + apply greedy_case; auto. intros a b. apply cset_match_case.
    + destruct s as [|a s], s' as [|b s']; try discriminate; [reflexivity|].
      destruct (@lower_cons _ _ _ _ Hl) as [Hab Hl'].
      rewrite (@cset_match_case cs _ _ Hab).
      destruct (cset_match true cs b); [|reflexivity].
      apply greedy_case; auto.
      * intros x y. apply cset_match_case.
      * apply is_word_opt_case; assumption.
  - cbn [match_here]. rewrite (@at_boundary_case prev prev' s s' Hp Hl).
    destruct (at_boundary prev' s'); [apply IH; assumption | reflexivity].
Qed.

Lemma search_from_case p :
  forall s s' prev prev',
    is_word_opt prev = is_word_opt prev' -> lower s = lower s' ->
    is_some (search_from true p prev s) = is_some (search_from true p prev' s').
Proof.
  induction s as [|a s IH]; intros s' prev prev' Hp Hl;
    destruct s' as [|b s']; try discriminate.
  - cbn [search_from].
    pose proof (@match_here_case p prev prev' EmptyString EmptyString Hp Hl) as H.
    destruct (match_here true p prev EmptyString),
             (match_here true p prev' EmptyString);
      try discriminate; reflexivity.
  - cbn [search_from].
    pose proof (@match_here_case p prev prev' _ _ Hp Hl) as H.
    destruct (@lower_cons _ _ _ _ Hl) as [Hab Hl'].
    destruct (match_here true p prev (String a s)),
             (match_here true p prev' (String b s'));
      try discriminate; [reflexivity|].
    apply IH; [apply is_word_opt_case|]; assumption.
Qed.

(** With [re.IGNORECASE], whether a pattern of the fragment is found does
    not depend on the letter case of the subject. *)
Lemma search_ignores_case text s s' :
  lower s = lower s' ->
  match search text s true, search text s' true with
  | Ok o, Ok o' => is_some o = is_some o'
  | Raise e, Raise e' => e = e'
  | _, _ => False
  end.
Proof.
  intros Hl. unfold search. destruct (compile text) as [p|e]; [|reflexivity].
  apply search_from_case; [reflexivity | assumption].
Qed.

End RegexFacts.


(* ===================================================================== *)
(** * Properties of command_analyzer.py *)
(* ===================================================================== *)

Module CommandProps.

Import PyStr Regex CommandAnalyzer MonadFacts RegexFacts.

(** ** The tables are within the fragment of [re] that is modelled *)

Lemma dangerous_patterns_compile :
  Forall (fun e : string * string * string =>
            exists p, compile (fst (fst e)) = Ok p) dangerous_patterns.
Proof.
  unfold dangerous_patterns.
  repeat (apply Forall_cons; [eexists; vm_compute; reflexivity|]).
  apply Forall_nil.
Qed.

Lemma best_practices_compile :
  Forall (fun e : string * string => exists p, compile (fst e) = Ok p)
         best_practices.
Proof.
  unfold best_practices.
  repeat (apply Forall_cons; [eexists; vm_compute; reflexivity|]).
  apply Forall_nil.
Qed.

(** ** What one turn of each loop does *)

Lemma dangerous_step_run c pattern risk message st :
  In (pattern, risk, message) dangerous_patterns ->
  exists o,
    Regex.search pattern c true = Ok o /\
    dangerous_step c (pattern, risk, message) st =
    (match o with
     | Some m =>
         set_risk_level (escalate risk (l_risk_level st))
           (append_issue (mk_issue "SECURITY" risk message m) st)
     | None => st
     end, Ok tt).
Proof.
  intros Hin.
  pose proof (proj1 (Forall_forall _ _) dangerous_patterns_compile _ Hin)
    as [p Hp]. cbn [fst] in Hp.
  exists (search_from true p None c).
  pose proof (search_ok pattern c true Hp) as Hs. split; [exact Hs|].
  unfold dangerous_step, bind, lift. rewrite Hs.
  destruct (search_from true p None c) as [m|] eqn:Hm; [|reflexivity].
  destruct (search_findall pattern c true Hs) as [l Hl].
  cbn [is_some when]. rewrite Hl. reflexivity.
Qed.

Lemma best_practice_step_run c pattern suggestion st :
  In (pattern, suggestion) best_practices ->
  exists o,
    Regex.search pattern c true = Ok o /\
    best_practice_step c (pattern, suggestion) st =
    (if is_some o then append_suggestion suggestion st else st, Ok tt).
Proof.
  intros Hin.
  pose proof (proj1 (Forall_forall _ _) best_practices_compile _ Hin)
    as [p Hp]. cbn [fst] in Hp.
  exists (search_from true p None c).
  pose proof (search_ok pattern c true Hp) as Hs. split; [exact Hs|].
  unfold best_practice_step, bind, lift. rewrite Hs.
  destruct (search_from true p None c); reflexivity.
Qed.

Lemma typo_step_run c typo correction st :
  typo_step c (typo, correction) st =
  (if contains typo c
   then append_issue
          (mk_issue "TYPO" "LOW"
             ("Possible typo: " ++ typo ++ " should be " ++ correction) typo) st
   else st, Ok tt).
Proof. unfold typo_step. destruct (contains typo c); reflexivity. Qed.

(** ** The Syntax & Style Checker returns a list for every input *)

Lemma python_syntax_handler_no_raise c e :
  no_raise (python_syntax_handler c e).
Proof.
  unfold python_syntax_handler.
  destruct (is_SyntaxError e); apply no_raise_modify.
Qed.

Lemma analyze_python_syntax_total ast_parse c :
  exists l, _analyze_python_syntax ast_parse c = Ok l.
Proof.
  unfold _analyze_python_syntax.
  destruct (no_raise_run (S:=list issue) nil
              (no_raise_try_all (python_syntax_checks ast_parse c)
                 any_Exception (python_syntax_handler c)
                 (fun e => eq_refl) (python_syntax_handler_no_raise c)))
    as (s' & a & H).
  rewrite H. eauto.
Qed.

Lemma python_path_run ast_parse c st :
  exists l,
    _analyze_python_syntax ast_parse c = Ok l /\
    python_path ast_parse c st =
    (if _looks_like_python c
     then match l with
          | [] => extend_issues l st
          | _ => set_risk_level "MEDIUM" (extend_issues l st)
          end
     else st, Ok tt).
Proof.
  destruct (analyze_python_syntax_total ast_parse c) as [l Hl].
  exists l. split; [exact Hl|].
  unfold python_path. destruct (_looks_like_python c); [|reflexivity].
  unfold when, bind, lift. rewrite Hl. destruct l; reflexivity.
Qed.

(** ** No check raises *)

Lemma dangerous_scan_no_raise c :
  no_raise (for_each dangerous_patterns (dangerous_step c)).
Proof.
  apply no_raise_for_each. intros [[pattern risk] message] Hin s.
  destruct (dangerous_step_run c s Hin) as (o & _ & H).
  rewrite H. exists tt; reflexivity.
Qed.

Lemma best_practice_scan_no_raise c :
  no_raise (for_each best_practices (best_practice_step c)).
Proof.
  apply no_raise_for_each. intros [pattern suggestion] Hin s.
  destruct (best_practice_step_run c s Hin) as (o & _ & H).
  rewrite H. exists tt; reflexivity.
Qed.

Lemma heuristic_checks_no_raise c : no_raise (heuristic_checks c).
Proof.
  unfold heuristic_checks.
  repeat (apply no_raise_bind; [|intros _]);
    repeat apply no_raise_when; apply no_raise_modify.
Qed.

Lemma typo_scan_no_raise c :
  no_raise (for_each common_typos (typo_step c)).
Proof.
  apply no_raise_for_each. intros [typo correction] _ s.
  rewrite typo_step_run. exists tt; reflexivity.
Qed.

Lemma table_checks_no_raise c : no_raise (table_checks c).
Proof.
  unfold table_checks.
  apply no_raise_bind; [apply dangerous_scan_no_raise | intros _].
  apply no_raise_bind; [apply best_practice_scan_no_raise | intros _].
  apply no_raise_bind; [apply heuristic_checks_no_raise | intros _].
  apply typo_scan_no_raise.
Qed.

Lemma python_path_no_raise ast_parse c : no_raise (python_path ast_parse c).
Proof.
  intros s. destruct (python_path_run ast_parse c s) as (l & _ & H).
  rewrite H. exists tt; reflexivity.
Qed.

Lemma run_checks_no_raise ast_parse c : no_raise (run_checks ast_parse c).
Proof.
  unfold run_checks.
  apply no_raise_bind; [apply python_path_no_raise | intros _].
  apply table_checks_no_raise.
Qed.

(** [analyze_command] builds its dictionary from the local variables left by
    the checks. *)
Lemma analyze_command_run ast_parse c :
  exists st,
    run_checks ast_parse c initial_locals = (st, Ok tt) /\
    analyze_command ast_parse c =
    Ok (mk_analysis c (l_issues st) (l_suggestions st) (l_risk_level st)
          (List.length (l_issues st)) (List.length (l_suggestions st))
          (_looks_like_python c)
          (if _looks_like_python c then _generate_corrected_code c
           else EmptyString)).
Proof.
  destruct (no_raise_run initial_locals (run_checks_no_raise ast_parse c))
    as (st & [] & H).
  exists st. split; [exact H|].
  unfold analyze_command. rewrite H. reflexivity.
Qed.

(** ** Invariants of the checks *)

Section Invariant.

Variable P : locals -> Prop.
Hypothesis P_issue : forall i st, P st -> P (append_issue i st).
Hypothesis P_extend : forall l st, P st -> P (extend_issues l st).
Hypothesis P_suggestion : forall s st, P st -> P (append_suggestion s st).
Hypothesis P_floor : forall st, P st -> P (set_risk_level "MEDIUM" st).
Hypothesis P_escalate :
  forall risk st, P st -> P (set_risk_level (escalate risk (l_risk_level st)) st).

Lemma dangerous_step_preserves c entry :
  In entry dangerous_patterns -> preserves P (dangerous_step c entry).
Proof.
  destruct entry as [[pattern risk] message]. intros Hin s Hs.
  destruct (dangerous_step_run c s Hin) as (o & _ & H).
  rewrite H. destruct o as [m|]; cbn [fst]; [|assumption].
  apply (P_escalate risk (P_issue (mk_issue "SECURITY" risk message m) Hs)).
Qed.

Lemma dangerous_scan_preserves c l :
  incl l dangerous_patterns -> preserves P (for_each l (dangerous_step c)).
Proof.
  intros Hl. apply preserves_for_each.
  intros x Hx. apply dangerous_step_preserves. apply Hl; assumption.
Qed.

Lemma later_checks_preserve c :
  preserves P
    (bind (for_each best_practices (best_practice_step c)) (fun _ =>
     bind (heuristic_checks c) (fun _ =>
     for_each common_typos (typo_step c)))).
Proof.
  apply preserves_bind; [|intros _; apply preserves_bind; [|intros _]].
  - apply preserves_for_each. intros [pattern suggestion] Hin s Hs.
    destruct (best_practice_step_run c s Hin) as (o & _ & H).
    rewrite H. destruct o; cbn [fst is_some]; auto.
  - unfold heuristic_checks.
    repeat (apply preserves_bind; [|intros _]);
      repeat apply preserves_when; apply preserves_modify; auto.
  - apply preserves_for_each. intros [typo correction] _ s Hs.
    rewrite typo_step_run. destruct (contains typo c); cbn [fst]; auto.
Qed.

Lemma table_checks_preserve c : preserves P (table_checks c).
Proof.
  unfold table_checks. apply preserves_bind.
  - apply dangerous_scan_preserves. apply incl_refl.
  - intros _. apply later_checks_preserve.
Qed.

Lemma python_path_preserves ast_parse c : preserves P (python_path ast_parse c).
Proof.
  intros s Hs. destruct (python_path_run ast_parse c s) as (l & _ & H).
  rewrite H. destruct (_looks_like_python c); cbn [fst]; [|assumption].
  destruct l; auto.
Qed.

Lemma run_checks_preserve ast_parse c : preserves P (run_checks ast_parse c).
Proof.
  unfold run_checks. apply preserves_bind.
  - apply python_path_preserves.
  - intros _. apply table_checks_preserve.
Qed.

End Invariant.

(** ** The risk scale *)

Lemma tier_le_refl a : is_tier a -> tier_le a a.
Proof.
  intros [<-|[<-|[<-|[<-|[]]]]]; vm_compute; auto.
Qed.

Lemma tier_le_trans a b c : tier_le a b -> tier_le b c -> tier_le a c.
Proof.
  unfold tier_le.
  destruct (tier_rank a), (tier_rank b), (tier_rank c); try tauto; lia.
Qed.

Lemma escalate_is_tier risk lvl : is_tier lvl -> is_tier (escalate risk lvl).
Proof.
  intros H. unfold escalate.
  destruct (risk =? "CRITICAL"); [vm_compute; tauto|].
  destruct ((risk =? "HIGH") && negb (lvl =? "CRITICAL"))%bool;
    [vm_compute; tauto|].
  destruct ((risk =? "MEDIUM")
            && negb (existsb (String.eqb lvl) ["CRITICAL"; "HIGH"]))%bool;
    [vm_compute; tauto | exact H].
Qed.

Lemma escalate_mono risk lvl : is_tier lvl -> tier_le lvl (escalate risk lvl).
Proof.
  intros [<-|[<-|[<-|[<-|[]]]]]; unfold escalate;
    destruct (risk =? "CRITICAL"), (risk =? "HIGH"), (risk =? "MEDIUM");
    vm_compute; auto.
Qed.

Lemma at_least_escalate z risk st :
  at_least z st ->
  at_least z (set_risk_level (escalate risk (l_risk_level st)) st).
Proof.
  intros [Ht Hz]. split; cbn [l_risk_level set_risk_level].
  - apply escalate_is_tier; assumption.
  - eapply tier_le_trans; [exact Hz | apply escalate_mono; assumption].
Qed.

Lemma table_checks_at_least z c : preserves (at_least z) (table_checks c).
Proof.
  apply table_checks_preserve; auto using at_least_escalate.
Qed.

Lemma dangerous_scan_at_least z c l :
  incl l dangerous_patterns ->
  preserves (at_least z) (for_each l (dangerous_step c)).
Proof.
  apply dangerous_scan_preserves; auto using at_least_escalate.
Qed.

Lemma run_checks_is_tier ast_parse c :
  preserves (fun st => is_tier (l_risk_level st)) (run_checks ast_parse c).
Proof.
  apply run_checks_preserve; auto.
  - intros st _. vm_compute; tauto.
  - intros risk st H. apply escalate_is_tier; assumption.
Qed.

(** ** A matching entry of the dangerous-pattern table is reported *)

Lemma matched_entry_reported ast_parse c pattern risk message m :
  In (pattern, risk, message) dangerous_patterns ->
  Regex.search pattern c true = Ok (Some m) ->
  exists r, analyze_command ast_parse c = Ok r /\
            In (mk_issue "SECURITY" risk message m) (issues r).
Proof.
  intros Hin Hm.
  destruct (analyze_command_run ast_parse c) as (st & Hrun & Hres).
  eexists; split; [exact Hres|]. cbn [issues].
  set (i := mk_issue "SECURITY" risk message m).
  set (Q := fun st : locals => In i (l_issues st)).
  assert (HQi : forall j st, Q st -> Q (append_issue j st)).
  { intros j s Hs. unfold Q, append_issue; cbn [l_issues].
    apply in_or_app; left; exact Hs. }
  assert (HQs : forall x st, Q st -> Q (append_suggestion x st))
    by (intros x s Hs; exact Hs).
  assert (HQe : forall risk st, Q st ->
             Q (set_risk_level (escalate risk (l_risk_level st)) st))
    by (intros x s Hs; exact Hs).
  destruct (python_path_run ast_parse c initial_locals) as (l & _ & Hpy).
  unfold run_checks in Hrun. unfold bind in Hrun at 1. rewrite Hpy in Hrun.
  set (st1 := if _looks_like_python c then _ else _) in Hrun.
  unfold table_checks in Hrun. unfold bind in Hrun at 1.
  destruct (no_raise_run st1 (dangerous_scan_no_raise c)) as (st2 & [] & H2).
  rewrite H2 in Hrun.
  assert (Q st2) as HQ2.
  { pose proof (@for_each_reaches locals _ (fun _ => True) Q
                  dangerous_patterns (dangerous_step c)
                  (pattern, risk, message) Hin) as HH.
    assert (Hnr : forall y, In y dangerous_patterns ->
                            no_raise (dangerous_step c y)).
    { intros [[p0 r0] m0] Hy s.
      destruct (dangerous_step_run c s Hy) as (o & _ & H). rewrite H.
      exists tt; reflexivity. }
    assert (Hp : forall y, In y dangerous_patterns ->
                           preserves Q (dangerous_step c y)).
    { intros y Hy. apply dangerous_step_preserves; auto. }
    assert (Hx : forall s, True ->
                 Q (fst (dangerous_step c (pattern, risk, message) s))).
    { intros s _. destruct (dangerous_step_run c s Hin) as (o & Ho & H).
      rewrite H. rewrite Hm in Ho. inversion Ho; subst o. cbn [fst].
      unfold Q, set_risk_level, append_issue; cbn [l_issues].
      apply in_or_app; right; left; reflexivity. }
    specialize (HH Hnr (fun _ _ _ _ => I) Hp Hx st1 I).
    rewrite H2 in HH. exact HH. }
  pose proof (@later_checks_preserve Q HQi HQs c st2 HQ2) as Hlater.
  rewrite Hrun in Hlater. exact Hlater.
Qed.

(** ** The level as a maximum over the matching entries *)

Lemma fold_max_acc a b l :
  fold_right Nat.max (Nat.max a b) l = Nat.max a (fold_right Nat.max b l).
Proof. induction l as [|x l IH]; simpl; [reflexivity | rewrite IH; lia]. Qed.

Lemma tier_rank_scale lvl : is_tier lvl -> tier_rank lvl = Some (scale_rank lvl).
Proof. intros [<-|[<-|[<-|[<-|[]]]]]; reflexivity. Qed.

Lemma scale_rank_off_chain risk :
  risk <> "CRITICAL" -> risk <> "HIGH" -> risk <> "MEDIUM" -> scale_rank risk = 0.
Proof.
  intros H1 H2 H3. unfold scale_rank, tier_rank.
  destruct (risk =? "LOW"); [reflexivity|].
  rewrite (proj2 (String.eqb_neq _ _) H3), (proj2 (String.eqb_neq _ _) H2),
    (proj2 (String.eqb_neq _ _) H1). reflexivity.
Qed.

(** One turn of the escalation chain takes the maximum of the entry's tier
    and the current level; a label the chain does not test leaves the level
    as it is. *)
Lemma escalate_rank risk lvl :
  is_tier lvl ->
  scale_rank (escalate risk lvl) = Nat.max (scale_rank risk) (scale_rank lvl).
Proof.
  intros Ht. unfold escalate.
  destruct (String.eqb_spec risk "CRITICAL") as [->|H1].
  { destruct Ht as [<-|[<-|[<-|[<-|[]]]]]; reflexivity. }
  destruct (String.eqb_spec risk "HIGH") as [->|H2].
  { destruct Ht as [<-|[<-|[<-|[<-|[]]]]]; reflexivity. }
  destruct (String.eqb_spec risk "MEDIUM") as [->|H3].
  { destruct Ht as [<-|[<-|[<-|[<-|[]]]]]; reflexivity. }
  cbn [andb]. rewrite (scale_rank_off_chain H1 H2 H3). reflexivity.
Qed.

Lemma dangerous_scan_rank c :
  forall l st,
    incl l dangerous_patterns ->
    is_tier (l_risk_level st) ->
    scale_rank (l_risk_level (fst (for_each l (dangerous_step c) st))) =
    fold_right Nat.max (scale_rank (l_risk_level st))
               (map scale_rank (matched_tiers_of l c)).
Proof.
  induction l as [|[[pattern risk] message] l IH]; intros st Hl Ht.
  - reflexivity.
  - assert (In (pattern, risk, message) dangerous_patterns) as Hin
        by (apply Hl; left; reflexivity).
    assert (incl l dangerous_patterns) as Hl'
        by (intros x Hx; apply Hl; right; exact Hx).
    cbn [for_each]. unfold bind.
    destruct (dangerous_step_run c st Hin) as (o & Ho & H). rewrite H.
    unfold matched_tiers_of. cbn [filter fst snd]. unfold fires at 1.
    rewrite Ho. destruct o as [m|].
    + cbn [map snd fst fold_right].
      rewrite IH; [|assumption|apply escalate_is_tier; assumption].
      cbn [l_risk_level set_risk_level append_issue].
      rewrite (escalate_rank risk Ht). apply fold_max_acc.
    + apply IH; assumption.
Qed.

Lemma later_checks_keep_level c st :
  l_risk_level
    (fst (bind (for_each best_practices (best_practice_step c)) (fun _ =>
          bind (heuristic_checks c) (fun _ =>
          for_each common_typos (typo_step c))) st)) = l_risk_level st.
Proof.
  apply (@later_checks_preserve
           (fun s => l_risk_level s = l_risk_level st)); auto.
Qed.

(** The position of the returned level on the scale is the maximum of the
    positions of the labels of the matching entries and of the floor set by
    the embedded-Python path, a label off the scale weighing as LOW. *)
Lemma risk_level_is_maximum ast_parse c :
  exists r python_issues,
    analyze_command ast_parse c = Ok r /\
    _analyze_python_syntax ast_parse c = Ok python_issues /\
    is_tier (risk_level r) /\
    scale_rank (risk_level r) =
    fold_right Nat.max
      (if _looks_like_python c && negb (Nat.eqb (List.length python_issues) 0)
       then 1 else 0)
      (map scale_rank (matched_tiers c)).
Proof.
  destruct (analyze_command_run ast_parse c) as (st & Hrun & Hres).
  destruct (python_path_run ast_parse c initial_locals) as (l & Hl & Hpy).
  exists (mk_analysis c (l_issues st) (l_suggestions st) (l_risk_level st)
            (List.length (l_issues st)) (List.length (l_suggestions st))
            (_looks_like_python c)
            (if _looks_like_python c then _generate_corrected_code c
             else EmptyString)), l.
  split; [exact Hres|]. split; [exact Hl|]. cbn [risk_level].
  split.
  { pose proof (@run_checks_is_tier ast_parse c initial_locals) as H.
    rewrite Hrun in H. apply H. vm_compute. tauto. }
  unfold run_checks in Hrun. unfold bind in Hrun at 1. rewrite Hpy in Hrun.
  set (st1 := if _looks_like_python c then _ else _) in Hrun.
  unfold table_checks in Hrun. unfold bind in Hrun at 1.
  destruct (for_each dangerous_patterns (dangerous_step c) st1)
    as [st2 [[]|e]] eqn:H2; [|discriminate].
  pose proof (later_checks_keep_level c st2) as Hkeep.
  rewrite Hrun in Hkeep. cbn [fst] in Hkeep. rewrite Hkeep.
  assert (is_tier (l_risk_level st1) /\
          scale_rank (l_risk_level st1) =
          (if _looks_like_python c && negb (Nat.eqb (List.length l) 0)
           then 1 else 0)) as [Ht1 Hr1].
  { unfold st1. destruct (_looks_like_python c); [|vm_compute; tauto].
    destruct l; vm_compute; tauto. }
  pose proof (dangerous_scan_rank c st1 (incl_refl _) Ht1) as Hscan.
  rewrite H2 in Hscan. cbn [fst] in Hscan. rewrite Hscan, Hr1. reflexivity.
Qed.

(** ** Letter case in the two regex scans *)

Lemma fires_ignores_case text c c' :
  lower c = lower c' -> fires text c = fires text c'.
Proof.
  intros Hl. unfold fires.
  pose proof (search_ignores_case text c c' Hl) as H.
  destruct (Regex.search text c true) as [[m|]|e],
           (Regex.search text c' true) as [[m'|]|e'];
    try discriminate; try contradiction; reflexivity.
Qed.

(** Two commands that differ by letter case only match the same entries of
    the dangerous-pattern table. *)
Lemma matched_tiers_ignore_case c c' :
  lower c = lower c' -> matched_tiers c = matched_tiers c'.
Proof.
  intros Hl. unfold matched_tiers, matched_tiers_of. f_equal.
  apply filter_ext. intros e. apply fires_ignores_case. exact Hl.
Qed.

(** ** The claims on [analyze_command] *)

Lemma root_deletion_analysis (ast_parse : parser) :
  analyze_command ast_parse "rm -rf /" =
  Ok (mk_analysis "rm -rf /"
        [mk_issue "SECURITY" "DANGER"
           "Using rm -rf on root directory can delete entire system"
           "rm -rf /"]
        [] "LOW" 1 0 false EmptyString).
Proof. vm_compute. reflexivity. Qed.

(** C1.  The command [rm -rf /] matches the first entry of the
    dangerous-pattern table, whose message is that it can delete the entire
    system; [analyze_command] reports that entry and returns the risk level
    LOW, whatever the parser. *)
Theorem rm_rf_root_is_rated_low (ast_parse : parser) :
  analyze_command ast_parse "rm -rf /" =
  Ok (mk_analysis "rm -rf /"
        [mk_issue "SECURITY" "DANGER"
           "Using rm -rf on root directory can delete entire system"
           "rm -rf /"]
        [] "LOW" 1 0 false EmptyString).
Proof. apply root_deletion_analysis. Qed.

(** C5.  The overall risk level never goes down during the scan of the
    dangerous-pattern table: no turn of the escalation chain lowers a level
    of the scale, and the level after any further entries of the table is at
    least the level before them.  When the command is classified Python-like
    and the Syntax & Style Checker returns at least one issue, the risk level
    of the result is at least MEDIUM. *)
Theorem risk_level_monotone_with_floor (ast_parse : parser) (c : string) :
  (forall risk lvl, is_tier lvl -> tier_le lvl (escalate risk lvl)) /\
  (forall later st,
      incl later dangerous_patterns ->
      is_tier (l_risk_level st) ->
      tier_le (l_risk_level st)
        (l_risk_level (fst (for_each later (dangerous_step c) st)))) /\
  (forall st,
      is_tier (l_risk_level st) ->
      tier_le (l_risk_level st) (l_risk_level (fst (table_checks c st)))) /\
  exists r,
    analyze_command ast_parse c = Ok r /\
    (forall python_issues,
        _looks_like_python c = true ->
        _analyze_python_syntax ast_parse c = Ok python_issues ->
        python_issues <> [] ->
        tier_le "MEDIUM" (risk_level r)).
Proof.
  split; [intros; apply escalate_mono; assumption|].
  split.
  { intros later st Hl Ht.
    pose proof (@dangerous_scan_at_least (l_risk_level st) c later Hl) as H.
    destruct (H st (conj Ht (tier_le_refl Ht))) as [_ H']. exact H'. }
  split.
  { intros st Ht.
    pose proof (@table_checks_at_least (l_risk_level st) c) as H.
    destruct (H st (conj Ht (tier_le_refl Ht))) as [_ H']. exact H'. }
  destruct (analyze_command_run ast_parse c) as (st & Hrun & Hres).
  eexists; split; [exact Hres|]. cbn [risk_level].
  intros python_issues Hlooks Hpy Hne.
  destruct (python_path_run ast_parse c initial_locals) as (l & Hl & Hpath).
  rewrite Hpy in Hl. inversion Hl; subst l. rewrite Hlooks in Hpath.
  unfold run_checks, bind in Hrun. rewrite Hpath in Hrun.
  destruct python_issues as [|i rest]; [contradiction|].
  pose proof (@table_checks_at_least "MEDIUM" c
                (set_risk_level "MEDIUM"
                   (extend_issues (i :: rest) initial_locals))) as H.
  rewrite Hrun in H. apply H. vm_compute. auto.
Qed.

Lemma risk_level_monotone_with_floor_witness :
  tier_le "MEDIUM" (escalate "HIGH" "MEDIUM") /\
  exists r,
    analyze_command Examples.rejecting_parser "print hello" = Ok r /\
    tier_le "MEDIUM" (risk_level r).
Proof.
  destruct (risk_level_monotone_with_floor Examples.rejecting_parser
              "print hello") as (Hstep & _ & _ & r & Hr & Hfloor).
  split.
  - apply Hstep. vm_compute. tauto.
  - exists r. split; [exact Hr|].
    apply (Hfloor [mk_issue "SYNTAX" "MEDIUM"
                     "Syntax error: invalid syntax (<unknown>, line 1)"
                     "print hello"]).
    + vm_compute. reflexivity.
    + vm_compute. reflexivity.
    + discriminate.
Defined.

(** ** The Syntax & Style Checker on a source that does not parse *)

(** C8.  When [ast.parse] raises on the source, the Syntax & Style Checker
    returns exactly one issue: its risk is MEDIUM, its message is the text of
    the exception after a fixed prefix, its part is the source; the checker
    itself returns normally. *)
Theorem syntax_checker_parse_failure
        (ast_parse : parser) (c : string) (e : exn) :
  ast_parse c = Raise e ->
  _analyze_python_syntax ast_parse c =
  Ok [mk_issue (if is_SyntaxError e then "SYNTAX" else "ERROR") "MEDIUM"
        ((if is_SyntaxError e then "Syntax error: "
          else "Python parsing error: ") ++ exn_str e)
        c].
Proof.
  intros H.
  unfold _analyze_python_syntax, try_except, python_syntax_checks, bind, lift.
  rewrite H. cbn [any_Exception]. unfold python_syntax_handler.
  destruct (is_SyntaxError e); reflexivity.
Qed.

Lemma syntax_checker_parse_failure_witness :
  _analyze_python_syntax Examples.rejecting_parser "print(" =
  Ok [mk_issue "SYNTAX" "MEDIUM"
        "Syntax error: invalid syntax (<unknown>, line 1)" "print("].
Proof.
  apply (syntax_checker_parse_failure Examples.rejecting_parser "print("
           (e:=SyntaxError "invalid syntax (<unknown>, line 1)" (Some 1%Z))).
  reflexivity.
Defined.

(** ** Purity and totality *)




(** ** The value DANGER *)

(** C10.  The risk level of every result is one of LOW, MEDIUM, HIGH and
    CRITICAL.  DANGER is none of the four, yet whenever the entry for
    [rm -rf /] or the entry for [rm -rf *] matches the command, the issues of
    the result contain a SECURITY issue whose risk is DANGER; [rm -rf /] is
    such a command. *)
Theorem risk_level_on_scale_danger_off_scale (ast_parse : parser) (c : string) :
  (exists r, analyze_command ast_parse c = Ok r /\
             In (risk_level r) ["LOW"; "MEDIUM"; "HIGH"; "CRITICAL"]) /\
  ~ In "DANGER" ["LOW"; "MEDIUM"; "HIGH"; "CRITICAL"] /\
  (forall pattern message m,
      In (pattern, message)
         [("rm\s+-rf\s+/",
           "Using rm -rf on root directory can delete entire system");
          ("rm\s+-rf\s+\*",
           "Using rm -rf * can delete all files in current directory")] ->
      Regex.search pattern c true = Ok (Some m) ->
      exists r, analyze_command ast_parse c = Ok r /\
                In (mk_issue "SECURITY" "DANGER" message m) (issues r)) /\
  (exists r i, analyze_command ast_parse "rm -rf /" = Ok r /\
               In i (issues r) /\
               i_type i = "SECURITY" /\ i_risk i = "DANGER").
Proof.
  split; [|split; [|split]].
  - destruct (analyze_command_run ast_parse c) as (st & Hrun & Hres).
    eexists. split; [exact Hres|]. cbn [risk_level].
    pose proof (@run_checks_is_tier ast_parse c initial_locals) as H.
    rewrite Hrun in H. apply H. vm_compute. tauto.
  - intros H. repeat (destruct H as [H|H]; [discriminate|]). exact H.
  - intros pattern message m Hin Hm.
    apply (@matched_entry_reported ast_parse c pattern "DANGER" message m);
      [|exact Hm].
    destruct Hin as [H|[H|[]]]; inversion H; subst; vm_compute; tauto.
  - eexists; eexists. split; [apply root_deletion_analysis|].
    cbn. split; [left; reflexivity | split; reflexivity].
Qed.

Lemma risk_level_on_scale_danger_off_scale_witness :
  exists r,
    analyze_command Examples.accepting_parser "rm -rf /home" = Ok r /\
    In (mk_issue "SECURITY" "DANGER"
          "Using rm -rf on root directory can delete entire system" "rm -rf /")
       (issues r).
Proof.
  destruct (risk_level_on_scale_danger_off_scale Examples.accepting_parser
              "rm -rf /home") as (_ & _ & H & _).
  apply (H "rm\s+-rf\s+/" _ "rm -rf /").
  - left. reflexivity.
  - vm_compute. reflexivity.
Defined.

(** ** Letter case in the three scans *)

(** The suggestions left by the best-practice scan. *)
Lemma best_practice_scan_run c :
  forall l st,
    incl l best_practices ->
    for_each l (best_practice_step c) st =
    (mk_locals (l_issues st)
       (l_suggestions st ++ best_practice_hits_of l c)%list
       (l_risk_level st), Ok tt).
Proof.
  induction l as [|[pattern suggestion] l IH]; intros st Hl.
  - destruct st. cbn. rewrite app_nil_r. reflexivity.
  - assert (In (pattern, suggestion) best_practices) as Hin
        by (apply Hl; left; reflexivity).
    assert (incl l best_practices) as Hl'
        by (intros x Hx; apply Hl; right; exact Hx).
    cbn [for_each]. unfold bind.
    destruct (best_practice_step_run c st Hin) as (o & Ho & H). rewrite H.
    rewrite (IH _ Hl'). unfold best_practice_hits_of. cbn [filter fst].
    unfold fires at 2. rewrite Ho.
    destruct o as [m|]; cbn [is_some map snd]; [|reflexivity].
    cbn [append_suggestion l_issues l_suggestions l_risk_level].
    rewrite <- app_assoc. reflexivity.
Qed.

(** The issues left by the typo scan. *)
Lemma typo_scan_run c :
  forall l st,
    for_each l (typo_step c) st =
    (mk_locals (l_issues st ++ map typo_issue (typo_hits_of l c))%list
       (l_suggestions st) (l_risk_level st), Ok tt).
Proof.
  induction l as [|[typo correction] l IH]; intros st.
  - destruct st. cbn. rewrite app_nil_r. reflexivity.
  - cbn [for_each]. unfold bind. rewrite typo_step_run, IH.
    unfold typo_hits_of. cbn [filter fst].
    destruct (contains typo c); [|reflexivity].
    cbn [append_issue l_issues l_suggestions l_risk_level map].
    rewrite <- app_assoc. reflexivity.
Qed.

(** The issues left by the scan of the dangerous-pattern table: one SECURITY
    issue per matching entry, in table order. *)
Lemma dangerous_scan_run c :
  forall l st,
    incl l dangerous_patterns ->
    exists new,
      l_issues (fst (for_each l (dangerous_step c) st))
      = (l_issues st ++ new)%list /\
      map security_finding new =
      map (fun e : string * string * string =>
             ("SECURITY", snd (fst e), snd e))
          (dangerous_hits_of l c).
Proof.
  induction l as [|[[pattern risk] message] l IH]; intros st Hl.
  - exists []. cbn. rewrite app_nil_r. auto.
  - assert (In (pattern, risk, message) dangerous_patterns) as Hin
        by (apply Hl; left; reflexivity).
    assert (incl l dangerous_patterns) as Hl'
        by (intros x Hx; apply Hl; right; exact Hx).
    cbn [for_each]. unfold bind.
    destruct (dangerous_step_run c st Hin) as (o & Ho & H). rewrite H.
    unfold dangerous_hits_of. cbn [filter fst]. unfold fires at 1.
    rewrite Ho. destruct o as [m|].
    + destruct (IH (set_risk_level (escalate risk (l_risk_level st))
                      (append_issue (mk_issue "SECURITY" risk message m) st))
                   Hl') as (new & Hnew & Hmap).
      exists (mk_issue "SECURITY" risk message m :: new). split.
      * rewrite Hnew. cbn [set_risk_level append_issue l_issues].
        rewrite <- app_assoc. reflexivity.
      * cbn [map security_finding i_type i_risk i_message fst snd].
        f_equal. exact Hmap.
    + apply IH; assumption.
Qed.

(** C7.  The typo scan tests [typo in command] on the command as typed,
    while the two regex scans pass [re.IGNORECASE] and the sudo check lowers
    the command.  The commands [cd..] and [CD..] differ by letter case only:
    the first gets the TYPO issue of the entry [cd..], the second gets no
    issue.  Likewise [sudo gerp x] gets the TYPO issue of the entry [gerp],
    and [SUDO GERP x] gets the sudo suggestion of the case-insensitive check
    but no TYPO issue. *)
Theorem typo_scan_is_case_sensitive (ast_parse : parser) :
  lower "CD.." = lower "cd.." /\
  contains "cd.." (lower "CD..") = true /\
  (exists r, analyze_command ast_parse "cd.." = Ok r /\
             issues r = [typo_issue ("cd..", "cd ..")]) /\
  (exists r, analyze_command ast_parse "CD.." = Ok r /\
             issues r = []) /\
  (exists r, analyze_command ast_parse "sudo gerp x" = Ok r /\
             issues r = [typo_issue ("gerp", "grep")] /\
             suggestions r = ["Verify if sudo is necessary for this command"]) /\
  (exists r, analyze_command ast_parse "SUDO GERP x" = Ok r /\
             issues r = [] /\
             suggestions r = ["Verify if sudo is necessary for this command"]).
Proof.
  split; [reflexivity|]. split; [reflexivity|].
  split; [eexists; split; [vm_compute; reflexivity | reflexivity]|].
  split; [eexists; split; [vm_compute; reflexivity | reflexivity]|].
  split; eexists; (split; [vm_compute; reflexivity | split; reflexivity]).
Qed.

(** ** The corrector *)

Lemma lstrip_head s c r : lstrip s = String c r -> isspace c = false.
Proof.
  induction s as [|a s' IH]; simpl; [discriminate|].
  destruct (isspace a) eqn:Ha; [exact IH|].
  intros H. inversion H; subst. exact Ha.
Qed.

Lemma rstrip_head c r :
  isspace c = false -> exists r', rstrip (String c r) = String c r'.
Proof.
  intros Hc. cbn [rstrip]. destruct (rstrip r).
  - rewrite Hc. eexists; reflexivity.
  - eexists; reflexivity.
Qed.

(** A stripped line does not begin with whitespace. *)
Lemma strip_head s c r : strip s = String c r -> isspace c = false.
Proof.
  unfold strip. destruct (lstrip s) as [|a s'] eqn:Hl; [discriminate|].
  pose proof (lstrip_head s Hl) as Ha.
  destruct (rstrip_head a s' Ha) as [r' Hr]. rewrite Hr.
  intros H. inversion H; subst. exact Ha.
Qed.

Lemma startswith_char c r (a : ascii) :
  startswith (String c r) (str1 a) = true -> c = a.
Proof.
  unfold startswith, str1. cbn [String.prefix].
  destruct (ascii_dec a c); [auto | discriminate].
Qed.

Lemma has_docstring_scan_false rest : has_docstring_scan rest = false.
Proof.
  induction rest as [|l rest' IH]; [reflexivity|].
  cbn [has_docstring_scan]. destruct (strip l) as [|c r] eqn:Hs.
  - exact IH.
  - pose proof (strip_head l Hs) as Hc.
    destruct (startswith (String c r) " ") eqn:H1.
    { apply (startswith_char c r " "%char) in H1. subst c. discriminate. }
    destruct (startswith (String c r) (str1 tab)) eqn:H2.
    { apply startswith_char in H2. subst c. discriminate. }
    reflexivity.
Qed.

(** C4.  The scan for a docstring after a header answers no for every list
    of following lines, so every [def] or [class] header line is followed by
    the three placeholder lines; a function whose body already begins with a
    triple-quoted docstring gets the placeholder as well. *)
Theorem docstring_is_never_detected :
  (forall rest, has_docstring_scan rest = false) /\
  (forall line rest,
      is_header line = true ->
      correct_lines (line :: rest) =
      (line :: placeholder line ++ correct_lines rest)%list) /\
  _generate_corrected_code Examples.documented_def =
  Examples.documented_def_corrected.
Proof.
  split; [exact has_docstring_scan_false|]. split.
  - intros line rest H. cbn [correct_lines].
    rewrite H, has_docstring_scan_false. reflexivity.
  - vm_compute. reflexivity.
Qed.

Lemma docstring_is_never_detected_witness :
  correct_lines ["class A:"; "    '''Doc.'''"] =
  ("class A:" :: placeholder "class A:" ++ correct_lines ["    '''Doc.'''"])%list.
Proof.
  apply (proj1 (proj2 docstring_is_never_detected) "class A:").
  vm_compute. reflexivity.
Defined.

End CommandProps.

(* ===================================================================== *)
(** * Properties of analyzer.py *)
(* ===================================================================== *)

Module AnalyzerProps.

Import PyStr Analyzer MonadFacts.

Local Open Scope Z_scope.

Lemma lint_penalty_nonneg type : 0 <= lint_penalty type.
Proof.
  unfold lint_penalty.
  destruct (String.eqb type "error"); [lia|].
  destruct (String.eqb type "warning"); lia.
Qed.

(** ** The first two checks never raise *)

Lemma lint_check_no_raise w filepath : no_raise (lint_check w filepath).
Proof.
  unfold lint_check. apply no_raise_try_all; [reflexivity|].
  intros e. apply no_raise_modify.
Qed.

Lemma complexity_check_no_raise w filepath :
  no_raise (complexity_check w filepath).
Proof.
  unfold complexity_check. apply no_raise_try_all; [reflexivity|].
  intros e. apply no_raise_modify.
Qed.

Lemma naming_step_no_raise node : no_raise (naming_step node).
Proof.
  destruct node; cbn [naming_step]; try apply no_raise_ret;
    apply no_raise_when;
    repeat (apply no_raise_bind; [|intros _]); apply no_raise_modify.
Qed.

(** ** Invariants of the checks

    [Q] is the invariant between the checks, [R] the one that holds from
    the moment an issue has been appended until the end of the block that
    appended it. *)

Section Invariant.

Variables Q R : locals -> Prop.
Hypothesis R_issue : forall i st, Q st -> R (append_issue i st).
Hypothesis R_deduct : forall n st, 0 <= n -> R st -> R (deduct n st).
Hypothesis R_suggestion : forall s st, R st -> R (append_suggestion s st).
Hypothesis Q_code : forall c st, Q st -> Q (set_code c st).
Hypothesis R_Q : forall st, R st -> Q st.

Lemma report_preserves i : preserves Q (modify (append_issue i)).
Proof. intros s H. cbn. auto. Qed.

Lemma report_deduct_preserves i n :
  0 <= n ->
  preserves Q (bind (modify (append_issue i)) (fun _ => modify (deduct n))).
Proof. intros Hn s H. cbn. auto. Qed.

Lemma report_deduct_suggest_preserves i n sg :
  0 <= n ->
  preserves Q (bind (modify (append_issue i)) (fun _ =>
               bind (modify (deduct n)) (fun _ =>
               modify (append_suggestion sg)))).
Proof. intros Hn s H. cbn. auto. Qed.

Lemma lint_check_preserves w filepath : preserves Q (lint_check w filepath).
Proof.
  unfold lint_check. apply preserves_try.
  - apply preserves_bind; [apply preserves_lift | intros out].
    apply preserves_for_each. intros entry _.
    apply preserves_bind; [apply preserves_lift | intros f].
    apply report_deduct_preserves. apply lint_penalty_nonneg.
  - intros e. apply report_preserves.
Qed.

Lemma complexity_check_preserves w filepath :
  preserves Q (complexity_check w filepath).
Proof.
  unfold complexity_check. apply preserves_try.
  - apply preserves_bind; [apply preserves_lift | intros code].
    apply preserves_bind; [apply preserves_modify; auto | intros _].
    apply preserves_bind; [apply preserves_lift | intros blocks].
    apply preserves_bind.
    + apply preserves_for_each. intros func _. apply preserves_when.
      apply report_deduct_suggest_preserves. lia.
    + intros _. apply preserves_bind; [apply preserves_lift | intros loc].
      apply preserves_when. apply report_deduct_suggest_preserves. lia.
  - intros e. apply report_preserves.
Qed.

Lemma naming_step_preserves node : preserves Q (naming_step node).
Proof.
  destruct node; cbn [naming_step]; try apply preserves_ret;
    apply preserves_when; apply report_deduct_suggest_preserves; lia.
Qed.

Lemma naming_check_preserves w : preserves Q (naming_check w).
Proof.
  unfold naming_check. apply preserves_try.
  - apply preserves_bind.
    + unfold read_code. apply preserves_bind; [apply preserves_get|].
      intros st. destruct (l_code st);
        [apply preserves_ret | apply preserves_raise].
    + intros code.
      apply preserves_bind; [apply preserves_lift | intros nodes].
      apply preserves_for_each. intros node _. apply naming_step_preserves.
  - intros e. apply report_deduct_preserves. lia.
Qed.

End Invariant.

Lemma append_issue_nonempty i st : l_issues (append_issue i st) <> [].
Proof.
  cbn [append_issue l_issues]. intros H.
  apply app_eq_nil in H. destruct H as [_ H]. discriminate.
Qed.

Section Scores.

Variable w : world.
Variable filepath : string.

Lemma lint_check_score z : preserves (score_at_most z) (lint_check w filepath).
Proof.
  apply lint_check_preserves with (R := score_at_most z);
    unfold score_at_most; cbn; intros; try assumption; lia.
Qed.

Lemma complexity_check_score z :
  preserves (score_at_most z) (complexity_check w filepath).
Proof.
  apply complexity_check_preserves with (R := score_at_most z);
    unfold score_at_most; cbn; intros; try assumption; lia.
Qed.

Lemma naming_check_score z : preserves (score_at_most z) (naming_check w).
Proof.
  apply naming_check_preserves with (R := score_at_most z);
    unfold score_at_most; cbn; intros; try assumption; lia.
Qed.

Ltac full_marks_cases :=
  unfold full_marks_unless_issue, issue_recorded;
  first
    [ intros i st [H1 H2]; split;
      [exact H1 | apply append_issue_nonempty]
    | intros n st Hn [H1 H2]; split; [cbn; lia | exact H2]
    | intros s st [H1 H2]; split; [exact H1 | exact H2]
    | intros c st [H1 H2]; split; [exact H1 | exact H2]
    | intros st [H1 H2]; split; [exact H1 | intros H; contradiction] ].

Lemma lint_check_full_marks :
  preserves full_marks_unless_issue (lint_check w filepath).
Proof.
  apply lint_check_preserves with (R := issue_recorded); full_marks_cases.
Qed.

Lemma complexity_check_full_marks :
  preserves full_marks_unless_issue (complexity_check w filepath).
Proof.
  apply complexity_check_preserves with (R := issue_recorded);
    full_marks_cases.
Qed.

Lemma naming_check_full_marks :
  preserves full_marks_unless_issue (naming_check w).
Proof.
  apply naming_check_preserves with (R := issue_recorded); full_marks_cases.
Qed.

(** The local variables when [analyze_code] returns. *)
Lemma analyze_code_run r :
  analyze_code w filepath = Ok r ->
  exists s1 s2 s3,
    lint_check w filepath initial_locals = (s1, Ok tt) /\
    complexity_check w filepath s1 = (s2, Ok tt) /\
    naming_check w s2 = (s3, Ok tt) /\
    r = mk_analysis (basename filepath) (l_issues s3) (Z.max 0 (l_score s3))
          (l_suggestions s3) (capture_lines w filepath) [].
Proof.
  unfold analyze_code, run_checks, bind. intros H.
  destruct (lint_check w filepath initial_locals) as [s1 [[]|e]] eqn:H1;
    [|discriminate].
  destruct (complexity_check w filepath s1) as [s2 [[]|e]] eqn:H2;
    [|discriminate].
  destruct (naming_check w s2) as [s3 [[]|e]] eqn:H3; [|discriminate].
  unfold modify in H. inversion H. exists s1, s2, s3.
  repeat split; assumption || reflexivity.
Qed.

End Scores.

(** ** A file that cannot be read, a parser that fails otherwise *)

Lemma lint_check_code_unbound w filepath :
  preserves code_unbound (lint_check w filepath).
Proof.
  apply lint_check_preserves with (R := code_unbound); auto.
Qed.

Lemma lint_check_returns w filepath st :
  exists s1, lint_check w filepath st = (s1, Ok tt).
Proof.
  destruct (no_raise_run st (lint_check_no_raise w filepath)) as (s1 & [] & H).
  exists s1. exact H.
Qed.

Lemma complexity_check_returns w filepath st :
  exists s2, complexity_check w filepath st = (s2, Ok tt).
Proof.
  destruct (no_raise_run st (complexity_check_no_raise w filepath))
    as (s2 & [] & H).
  exists s2. exact H.
Qed.

(** After the complexity check of a readable file, [code] holds its text. *)
Lemma complexity_check_binds_code w filepath code st :
  read_text w filepath = Ok code ->
  code_bound_to code (fst (complexity_check w filepath st)).
Proof.
  intros Hread. unfold complexity_check, try_except.
  unfold bind at 1. unfold lift at 1. rewrite Hread.
  unfold bind at 1. unfold modify at 1.
  match goal with
  | |- context [ bind ?m ?k (set_code code st) ] =>
      assert (preserves (code_bound_to code) (bind m k)) as Hp
  end.
  { apply preserves_bind; [apply preserves_lift | intros blocks].
    apply preserves_bind.
    - apply preserves_for_each. intros func _. apply preserves_when.
      apply report_deduct_suggest_preserves with (R := code_bound_to code);
        auto; lia.
    - intros _. apply preserves_bind; [apply preserves_lift | intros loc].
      apply preserves_when.
      apply report_deduct_suggest_preserves with (R := code_bound_to code);
        auto; lia. }
  specialize (Hp (set_code code st) eq_refl).
  match goal with
  | |- context [ bind ?m ?k (set_code code st) ] =>
      destruct (bind m k (set_code code st)) as [s' [a|e]]
  end; cbn [fst] in *; [exact Hp|].
  cbn [any_Exception]. exact Hp.
Qed.

Lemma complexity_check_unreadable w filepath st e :
  read_text w filepath = Raise e ->
  complexity_check w filepath st =
  (append_issue
     (mk_issue "error" ("Complexity analysis failed: " ++ exn_str e) (Some 0))
     st, Ok tt).
Proof.
  intros H. unfold complexity_check, try_except, bind, lift. rewrite H.
  reflexivity.
Qed.

Lemma naming_check_unbound w st :
  code_unbound st ->
  naming_check w st = (st, Raise (UnboundLocalError unbound_code_message)).
Proof.
  intros H. unfold code_unbound in H.
  unfold naming_check, try_except, read_code, get. unfold bind.
  cbv beta iota. rewrite H. reflexivity.
Qed.

Lemma naming_check_other_exception w st code e :
  code_bound_to code st ->
  ast_parse w code = Raise e ->
  is_SyntaxError e = false ->
  naming_check w st = (st, Raise e).
Proof.
  intros Hc Hp Hn. unfold code_bound_to in Hc.
  unfold naming_check, try_except, read_code, get, lift. unfold bind.
  cbv beta iota. rewrite Hc. unfold ret. cbv beta iota.
  rewrite Hp. cbv beta iota. rewrite Hn. reflexivity.
Qed.

(** C2.  When the file cannot be read, the lint pass and the complexity
    check return, the latter after recording its failure, and the naming walk
    then reads the variable [code] that was never assigned: [analyze_code]
    raises [UnboundLocalError] instead of returning a result.  It also raises
    when the file is readable and [ast.parse] fails with an exception other
    than [SyntaxError]. *)
Theorem analyze_code_raises_on_unreadable_file (w : world) (filepath : string) :
  (forall e,
      read_text w filepath = Raise e ->
      exists msg, analyze_code w filepath = Raise (UnboundLocalError msg)) /\
  (forall code e,
      read_text w filepath = Ok code ->
      ast_parse w code = Raise e ->
      is_SyntaxError e = false ->
      analyze_code w filepath = Raise e).
Proof.
  split.
  - intros e Hread.
    destruct (lint_check_returns w filepath initial_locals) as [s1 H1].
    assert (code_unbound s1) as Hc1.
    { pose proof (@lint_check_code_unbound w filepath initial_locals eq_refl)
        as H. rewrite H1 in H. exact H. }
    eexists. unfold analyze_code, run_checks, bind.
    rewrite H1, (complexity_check_unreadable w filepath s1 Hread).
    rewrite naming_check_unbound; [reflexivity | exact Hc1].
  - intros code e Hread Hparse Hnot.
    destruct (lint_check_returns w filepath initial_locals) as [s1 H1].
    destruct (complexity_check_returns w filepath s1) as [s2 H2].
    pose proof (complexity_check_binds_code w filepath s1 Hread) as Hc2.
    rewrite H2 in Hc2. cbn [fst] in Hc2.
    unfold analyze_code, run_checks, bind. rewrite H1, H2.
    rewrite (@naming_check_other_exception w s2 code e Hc2 Hparse Hnot).
    reflexivity.
Qed.

Lemma analyze_code_raises_on_unreadable_file_witness :
  (exists msg,
      analyze_code Examples.unreadable_world "missing.py" =
      Raise (UnboundLocalError msg)) /\
  analyze_code Examples.null_byte_world "blob.py" =
  Raise Examples.null_byte_error.
Proof.
  split.
  - apply (proj1 (analyze_code_raises_on_unreadable_file
                    Examples.unreadable_world "missing.py")
                 Examples.no_such_file).
    reflexivity.
  - apply (proj2 (analyze_code_raises_on_unreadable_file
                    Examples.null_byte_world "blob.py")
                 (String "000" EmptyString)); reflexivity.
Defined.

(** ** The naming walk *)

(** What the walk does at a function definition. *)
Lemma naming_step_function name lineno st :
  naming_step (FunctionDef name lineno) st =
  (if negb (islower name) || negb (contains "_" name)
   then append_suggestion ("Rename " ++ name ++ " to follow snake_case")
          (deduct 2
             (append_issue
                (mk_issue "warning"
                   ("Function name " ++ name
                      ++ " does not follow snake_case convention")
                   (Some lineno)) st))
   else st, Ok tt).
Proof.
  cbn [naming_step]. unfold bad_function_name.
  destruct (negb (islower name) || negb (contains "_" name))%bool; reflexivity.
Qed.

Lemma naming_walk_no_raise nodes : no_raise (for_each nodes naming_step).
Proof.
  apply no_raise_for_each. intros node _. apply naming_step_no_raise.
Qed.

(** On a bound [code] that parses, the naming check is the walk. *)
Lemma naming_check_parsed w st code nodes :
  code_bound_to code st ->
  ast_parse w code = Ok nodes ->
  naming_check w st = for_each nodes naming_step st.
Proof.
  intros Hc Hp. unfold code_bound_to in Hc.
  destruct (no_raise_run st (naming_walk_no_raise nodes)) as (s3 & [] & H).
  rewrite H. unfold naming_check, try_except, read_code, get, lift.
  unfold bind. cbv beta iota. rewrite Hc. unfold ret. cbv beta iota.
  rewrite Hp. cbv beta iota. rewrite H. reflexivity.
Qed.

(** [analyze_code] returns a result for a readable file that parses. *)
Lemma analyze_code_returns w filepath code nodes :
  read_text w filepath = Ok code ->
  ast_parse w code = Ok nodes ->
  exists r, analyze_code w filepath = Ok r.
Proof.
  intros Hread Hparse.
  destruct (lint_check_returns w filepath initial_locals) as [s1 H1].
  destruct (complexity_check_returns w filepath s1) as [s2 H2].
  pose proof (complexity_check_binds_code w filepath s1 Hread) as Hc2.
  rewrite H2 in Hc2. cbn [fst] in Hc2.
  destruct (no_raise_run s2 (naming_walk_no_raise nodes)) as (s3 & [] & H3).
  unfold analyze_code, run_checks, bind. rewrite H1, H2.
  rewrite (@naming_check_parsed w s2 code nodes Hc2 Hparse), H3.
  eexists. reflexivity.
Qed.

Lemma naming_check_syntax_error w st code e :
  code_bound_to code st ->
  ast_parse w code = Raise e ->
  is_SyntaxError e = true ->
  naming_check w st =
  (deduct 20
     (append_issue
        (mk_issue "error" ("Syntax error: " ++ exn_str e)
           (syntax_error_lineno e)) st), Ok tt).
Proof.
  intros Hc Hp He. unfold code_bound_to in Hc.
  unfold naming_check, try_except, read_code, get, lift. unfold bind.
  cbv beta iota. rewrite Hc. unfold ret. cbv beta iota.
  rewrite Hp. cbv beta iota. rewrite He. reflexivity.
Qed.

(** [analyze_code] returns a result for every readable file on which the
    parser answers with a tree or with [SyntaxError]. *)
Lemma analyze_code_returns_unless_parser_breaks w filepath code :
  read_text w filepath = Ok code ->
  (forall e, ast_parse w code = Raise e -> is_SyntaxError e = true) ->
  exists r, analyze_code w filepath = Ok r.
Proof.
  intros Hread Hsyn.
  destruct (ast_parse w code) as [nodes|e] eqn:Hparse.
  - apply (@analyze_code_returns w filepath code nodes Hread Hparse).
  - destruct (lint_check_returns w filepath initial_locals) as [s1 H1].
    destruct (complexity_check_returns w filepath s1) as [s2 H2].
    pose proof (complexity_check_binds_code w filepath s1 Hread) as Hc2.
    rewrite H2 in Hc2. cbn [fst] in Hc2.
    unfold analyze_code, run_checks, bind. rewrite H1, H2.
    rewrite (@naming_check_syntax_error w s2 code e Hc2 Hparse
               (Hsyn e eq_refl)).
    eexists. reflexivity.
Qed.

(** A function definition whose name fails the test of line 63 is reported:
    the result carries the warning and the rename suggestion and its score is
    at most 98. *)
Lemma bad_function_name_is_reported w filepath code nodes name lineno :
  read_text w filepath = Ok code ->
  ast_parse w code = Ok nodes ->
  In (FunctionDef name lineno) nodes ->
  bad_function_name name = true ->
  exists r,
    analyze_code w filepath = Ok r /\
    In (mk_issue "warning"
          ("Function name " ++ name ++ " does not follow snake_case convention")
          (Some lineno)) (issues r) /\
    In ("Rename " ++ name ++ " to follow snake_case") (suggestions r) /\
    score r <= 98.
Proof.
  intros Hread Hparse Hin Hbad.
  destruct (analyze_code_returns w filepath Hread Hparse) as [r Hr].
  exists r. split; [exact Hr|].
  destruct (analyze_code_run w filepath Hr)
    as (s1 & s2 & s3 & H1 & H2 & H3 & ->).
  cbn [issues suggestions score].
  pose proof (complexity_check_binds_code w filepath s1 Hread) as Hc2.
  rewrite H2 in Hc2. cbn [fst] in Hc2.
  rewrite (@naming_check_parsed w s2 code nodes Hc2 Hparse) in H3.
  set (i := mk_issue "warning"
              ("Function name " ++ name
                 ++ " does not follow snake_case convention") (Some lineno)).
  set (sg := "Rename " ++ name ++ " to follow snake_case").
  set (Q := fun st : locals =>
              In i (l_issues st) /\ In sg (l_suggestions st)
              /\ l_score st <= 98).
  assert (Q s3) as (Hi & Hs & Hsc).
  { pose proof (@for_each_reaches locals _ (score_at_most 100) Q nodes
                  naming_step (FunctionDef name lineno) Hin) as HH.
    assert (HI : forall node, In node nodes ->
                              preserves (score_at_most 100) (naming_step node)).
    { intros node _.
      apply naming_step_preserves with (R := score_at_most 100);
        unfold score_at_most; cbn; intros; try assumption; lia. }
    assert (HQ : forall node, In node nodes ->
                              preserves Q (naming_step node)).
    { intros node _.
      apply naming_step_preserves with (R := Q); unfold Q; auto.
      - intros j st (A & B & C). cbn. split; [|auto].
        apply in_or_app; left; exact A.
      - intros n st Hn (A & B & C). cbn. repeat split; auto; lia.
      - intros x st (A & B & C). cbn. repeat split; auto.
        apply in_or_app; left; exact B. }
    assert (Hx : forall s, score_at_most 100 s ->
                           Q (fst (naming_step (FunctionDef name lineno) s))).
    { intros s Hs. rewrite naming_step_function.
      unfold bad_function_name in Hbad. rewrite Hbad.
      unfold Q, score_at_most in *. cbn.
      repeat split; try lia; apply in_or_app; right; left; reflexivity. }
    assert (score_at_most 100 s2) as Hs2.
    { pose proof (@lint_check_score w filepath 100 initial_locals) as A.
      rewrite H1 in A. cbn [fst] in A.
      pose proof (@complexity_check_score w filepath 100 s1) as B.
      rewrite H2 in B. cbn [fst] in B.
      apply B. apply A. unfold score_at_most. cbn. lia. }
    specialize (HH (fun node _ => naming_step_no_raise node) HI HQ Hx s2 Hs2).
    rewrite H3 in HH. exact HH. }
  repeat split; try assumption. lia.
Qed.

(** C3.  The name [main] is all lowercase, yet the test of the naming walk
    holds for it because it has no underscore: for a file that defines only
    [main], [analyze_code] reports the warning that the name does not follow
    snake_case, suggests renaming it and returns the score 98, exactly as it
    does for the same file with the function named [MyFunc]. *)
Theorem lowercase_name_without_underscore_is_flagged :
  islower "main" = true /\
  bad_function_name "main" = true /\
  analyze_code Examples.main_world "main.py" =
  Ok (mk_analysis "main.py"
        [mk_issue "warning"
           "Function name main does not follow snake_case convention"
           (Some 1)]
        98
        ["Rename main to follow snake_case"]
        ["def main():"; "    pass"]
        []) /\
  analyze_code Examples.myfunc_world "my_func.py" =
  Ok (mk_analysis "my_func.py"
        [mk_issue "warning"
           "Function name MyFunc does not follow snake_case convention"
           (Some 1)]
        98
        ["Rename MyFunc to follow snake_case"]
        ["def MyFunc():"; "    pass"]
        []).
Proof. repeat split; vm_compute; reflexivity. Qed.

(** ** The score *)

(** C6.  The score starts at 100; none of the three checks raises it;
    whenever [analyze_code] returns a result, its score is between 0 and 100
    and equals 100 when the result has no issue; and it does return a result
    for every readable file on which the parser answers with a tree or with
    [SyntaxError]. *)
Theorem score_within_bounds (w : world) (filepath : string) :
  l_score initial_locals = 100 /\
  (forall st, l_score (fst (lint_check w filepath st)) <= l_score st) /\
  (forall st, l_score (fst (complexity_check w filepath st)) <= l_score st) /\
  (forall st, l_score (fst (naming_check w st)) <= l_score st) /\
  (forall r, analyze_code w filepath = Ok r ->
             0 <= score r <= 100 /\ (issues r = [] -> score r = 100)) /\
  (forall code,
      read_text w filepath = Ok code ->
      (forall e, ast_parse w code = Raise e -> is_SyntaxError e = true) ->
      exists r, analyze_code w filepath = Ok r).
Proof.
  split; [reflexivity|].
  split; [intros st; apply (@lint_check_score w filepath (l_score st) st);
          unfold score_at_most; lia|].
  split; [intros st;
          apply (@complexity_check_score w filepath (l_score st) st);
          unfold score_at_most; lia|].
  split; [intros st; apply (@naming_check_score w (l_score st) st);
          unfold score_at_most; lia|].
  split; [|intros code; apply analyze_code_returns_unless_parser_breaks].
  intros r Hr.
  destruct (analyze_code_run w filepath Hr) as (s1 & s2 & s3 & H1 & H2 & H3 & ->).
  cbn [score issues].
  assert (full_marks_unless_issue initial_locals) as H0
      by (split; [cbn; lia | reflexivity]).
  pose proof (lint_check_full_marks w filepath H0) as F1.
  rewrite H1 in F1. cbn [fst] in F1.
  pose proof (complexity_check_full_marks w filepath F1) as F2.
  rewrite H2 in F2. cbn [fst] in F2.
  pose proof (naming_check_full_marks w F2) as F3.
  rewrite H3 in F3. cbn [fst] in F3.
  destruct F3 as [Hle Hfull]. split; [lia|].
  intros Hnil. rewrite (Hfull Hnil). reflexivity.
Qed.

Lemma score_within_bounds_witness :
  exists r, analyze_code Examples.clean_world "my_module.py" = Ok r /\
            0 <= score r <= 100 /\ score r = 100.
Proof.
  destruct (score_within_bounds Examples.clean_world "my_module.py")
    as (_ & _ & _ & _ & Hscore & Hret).
  destruct (Hret ("def my_func():" ++ str1 nl ++ "    pass" ++ str1 nl)
                 eq_refl) as [r Hr].
  { intros e He. discriminate He. }
  exists r. split; [exact Hr|].
  destruct (Hscore r Hr) as [Hb Hfull].
  split; [exact Hb|]. apply Hfull.
  vm_compute in Hr. inversion Hr. reflexivity.
Defined.

End AnalyzerProps.

(* ===================================================================== *)
(** * More on command_analyzer.py *)
(* ===================================================================== *)

Module CommandExtras.

Import PyStr Regex CommandAnalyzer Observe MonadFacts RegexFacts CommandProps.

(** ** The text a match quotes *)

Lemma length_append a b :
  String.length (a ++ b) = String.length a + String.length b.
Proof. induction a as [|c a IH]; cbn; [reflexivity | rewrite IH; reflexivity]. Qed.

Lemma take_append m rest : take (String.length m) (m ++ rest) = m.
Proof.
  unfold take. induction m as [|c m IH]; cbn.
  - destruct rest; reflexivity.
  - rewrite IH. reflexivity.
Qed.

Lemma prefix_append m rest : String.prefix m (m ++ rest) = true.
Proof.
  induction m as [|c m IH]; cbn; [destruct rest; reflexivity|].
  destruct (ascii_dec c c); [exact IH | contradiction].
Qed.

Lemma contains_prefix m s : String.prefix m s = true -> contains m s = true.
Proof. intros H. destruct s; cbn [contains]; rewrite H; reflexivity. Qed.

Lemma contains_cons m c s : contains m s = true -> contains m (String c s) = true.
Proof. intros H. cbn [contains]. rewrite H. apply orb_true_r. Qed.

Lemma greedy_suffix f k :
  (forall prev s rest, k prev s = Some rest -> exists m, s = m ++ rest) ->
  forall s prev rest,
    greedy f k prev s = Some rest -> exists m, s = m ++ rest.
Proof.
  intros Hk. induction s as [|c s IH]; intros prev rest H; cbn [greedy] in H.
  - apply (Hk _ _ _ H).
  - destruct (f c); [|apply (Hk _ _ _ H)].
    destruct (greedy f k (Some c) s) as [r|] eqn:G.
    + inversion H; subst r. destruct (IH _ _ G) as [m Hm].
      exists (String c m). cbn. rewrite <- Hm. reflexivity.
    + apply (Hk _ _ _ H).
Qed.

(** What a match leaves is a suffix of the subject. *)
Lemma match_here_suffix ic p :
  forall prev s rest,
    match_here ic p prev s = Some rest -> exists m, s = m ++ rest.
Proof.
  induction p as [|[cs q|] p IH]; intros prev s rest H; cbn [match_here] in H.
  - inversion H. exists EmptyString. reflexivity.
  - destruct q.
    + destruct s as [|c s]; [discriminate|].
      destruct (cset_match ic cs c); [|discriminate].
      destruct (IH _ _ _ H) as [m Hm].
      exists (String c m). cbn. rewrite <- Hm. reflexivity.
    + apply (greedy_suffix (cset_match ic cs) (match_here ic p) IH _ _ H).
    + destruct s as [|c s]; [discriminate|].
      destruct (cset_match ic cs c); [|discriminate].
      destruct (greedy_suffix (cset_match ic cs) (match_here ic p) IH _ _ H)
        as [m Hm].
      exists (String c m). cbn. rewrite <- Hm. reflexivity.
  - destruct (at_boundary prev s); [apply (IH _ _ _ H) | discriminate].
Qed.

(** The text [re.search] returns occurs in the subject. *)
Lemma search_from_contains ic p :
  forall s prev m, search_from ic p prev s = Some m -> contains m s = true.
Proof.
  assert (Hhere : forall prev s rest,
             match_here ic p prev s = Some rest ->
             contains (matched s rest) s = true).
  { intros prev s rest H. destruct (match_here_suffix ic p _ _ H) as [m Hm].
    subst s. unfold matched. rewrite length_append, Nat.add_sub, take_append.
    apply contains_prefix, prefix_append. }
  induction s as [|c s IH]; intros prev m H; cbn [search_from] in H.
  - destruct (match_here ic p prev EmptyString) as [rest|] eqn:E;
      [|discriminate].
    inversion H; subst m. apply (Hhere _ _ _ E).
  - destruct (match_here ic p prev (String c s)) as [rest|] eqn:E.
    + inversion H; subst m. apply (Hhere _ _ _ E).
    + apply contains_cons. apply (IH _ _ H).
Qed.

Lemma search_contains text s ic m :
  Regex.search text s ic = Ok (Some m) -> contains m s = true.
Proof.
  unfold Regex.search. destruct (compile text) as [p|e]; [|discriminate].
  intros H. inversion H as [H']. apply (search_from_contains ic p _ _ H').
Qed.

(** X2.  Every entry of the dangerous-pattern table that matches the command is
    reported: the result holds a SECURITY issue with the tier and the message
    of the entry, and the part it quotes is text of the command. *)
Theorem matching_entry_is_reported_with_its_text
        (ast_parse : parser) (c pattern risk message : string) :
  In (pattern, risk, message) dangerous_patterns ->
  fires pattern c = true ->
  exists r m,
    analyze_command ast_parse c = Ok r /\
    In (mk_issue "SECURITY" risk message m) (issues r) /\
    contains m c = true.
Proof.
  intros Hin Hf. unfold fires in Hf.
  destruct (Regex.search pattern c true) as [[m|]|e] eqn:Hs; try discriminate.
  destruct (@matched_entry_reported ast_parse c pattern risk message m Hin Hs)
    as (r & Hr & Hi).
  exists r, m. repeat split; try assumption.
  apply (search_contains pattern c true Hs).
Qed.

Lemma matching_entry_is_reported_with_its_text_witness :
  exists r m,
    analyze_command Examples.accepting_parser "echo x > /dev/SDA" = Ok r /\
    In (mk_issue "SECURITY" "CRITICAL"
          "Writing to disk device can destroy partition" m) (issues r) /\
    contains m "echo x > /dev/SDA" = true.
Proof.
  apply (@matching_entry_is_reported_with_its_text
           Examples.accepting_parser "echo x > /dev/SDA" ">\s*/dev/sd[a-z]"
           "CRITICAL" "Writing to disk device can destroy partition").
  - vm_compute. tauto.
  - vm_compute. reflexivity.
Defined.

(** ** The level as a maximum *)

(** X1.  The position of the returned level on the scale is the maximum of the
    positions of the labels of the matching entries of the dangerous-pattern
    table and of the floor set by the embedded-Python path, a label off the
    scale weighing as LOW; the level is one of the four tiers. *)
Theorem risk_level_is_maximum_on_scale (ast_parse : parser) (c : string) :
  exists r python_issues,
    analyze_command ast_parse c = Ok r /\
    _analyze_python_syntax ast_parse c = Ok python_issues /\
    is_tier (risk_level r) /\
    scale_rank (risk_level r) =
    fold_right Nat.max
      (if _looks_like_python c && negb (Nat.eqb (List.length python_issues) 0)
       then 1 else 0)
      (map scale_rank (matched_tiers c)).
Proof. exact (risk_level_is_maximum ast_parse c). Qed.

(** ** The shape of the result *)

Lemma dangerous_scan_keeps_suggestions c l st :
  incl l dangerous_patterns ->
  l_suggestions (fst (for_each l (dangerous_step c) st)) = l_suggestions st.
Proof.
  intros Hl.
  apply (@dangerous_scan_preserves
           (fun s => l_suggestions s = l_suggestions st)); auto.
Qed.

(** What the three heuristic checks leave. *)
Lemma heuristic_checks_run c st :
  exists extra,
    heuristic_checks c st =
    (mk_locals (l_issues st) (l_suggestions st ++ extra)%list
       (l_risk_level st), Ok tt) /\
    incl extra heuristic_texts /\ List.length extra <= 3.
Proof.
  exists ((if contains "sudo" (lower c)
              && negb (existsb (fun word => contains word (lower c))
                               package_words)
           then ["Verify if sudo is necessary for this command"] else [])
          ++ (if contains "|" c
              then ["Consider breaking complex piped commands into separate steps for clarity"]
              else [])
          ++ (if (10 <? List.length (split_ws c))%nat
              then ["Command is quite long - consider using a script for complex operations"]
              else []))%list.
  unfold heuristic_checks, bind, when, modify, ret, heuristic_texts.
  destruct st as [iss sg rl].
  destruct (contains "sudo" (lower c));
    destruct (existsb (fun word => contains word (lower c)) package_words);
    destruct (contains "|" c);
    destruct (10 <? List.length (split_ws c))%nat;
    unfold append_suggestion;
    cbn [andb negb app l_issues l_suggestions l_risk_level List.length];
    rewrite <- ?app_assoc; cbn [app];
    (split; [rewrite ?app_nil_r; reflexivity|]);
    (split; [intros x Hx; cbn in Hx |- *; tauto | lia]).
Qed.

(** X3.  The issues of a result are, in this order, those of the Syntax & Style
    Checker when the command is classified Python-like, one SECURITY issue
    per matching entry of the dangerous-pattern table in table order, and one
    TYPO issue per entry of the typo table found in the command.  The
    suggestions are those of the matching best-practice entries in table
    order, followed by at most three suggestions of the heuristic checks. *)
Theorem result_lists_in_scan_order (ast_parse : parser) (c : string) :
  exists r python_issues security extra,
    analyze_command ast_parse c = Ok r /\
    _analyze_python_syntax ast_parse c = Ok python_issues /\
    issues r =
      ((if _looks_like_python c then python_issues else [])
       ++ security ++ map typo_issue (typo_hits c))%list /\
    map security_finding security =
      map (fun e : string * string * string =>
             ("SECURITY", snd (fst e), snd e)) (dangerous_hits c) /\
    suggestions r = (best_practice_hits c ++ extra)%list /\
    incl extra heuristic_texts /\ List.length extra <= 3.
Proof.
  destruct (analyze_command_run ast_parse c) as (st & Hrun & Hres).
  destruct (python_path_run ast_parse c initial_locals) as (l & Hl & Hpy).
  unfold run_checks in Hrun. unfold bind in Hrun at 1. rewrite Hpy in Hrun.
  set (st1 := if _looks_like_python c then _ else _) in Hrun.
  assert (l_issues st1 = (if _looks_like_python c then l else [])
          /\ l_suggestions st1 = []) as [Hi1 Hs1].
  { unfold st1. destruct (_looks_like_python c); [|split; reflexivity].
    destruct l; split; reflexivity. }
  unfold table_checks in Hrun. unfold bind in Hrun at 1.
  destruct (no_raise_run st1 (dangerous_scan_no_raise c)) as (st2 & [] & H2).
  rewrite H2 in Hrun.
  destruct (@dangerous_scan_run c dangerous_patterns st1 (incl_refl _))
    as (security & Hsec & Hmap).
  pose proof (@dangerous_scan_keeps_suggestions c dangerous_patterns st1
                (incl_refl _)) as Hsg2.
  rewrite H2 in Hsec, Hsg2. cbn [fst] in Hsec, Hsg2.
  unfold bind in Hrun at 1.
  rewrite (@best_practice_scan_run c best_practices st2 (incl_refl _)) in Hrun.
  unfold bind in Hrun.
  match type of Hrun with
  | context [heuristic_checks c ?s] =>
      destruct (heuristic_checks_run c s) as (extra & Hh & Hincl & Hlen)
  end.
  rewrite Hh, typo_scan_run in Hrun.
  cbn [l_issues l_suggestions l_risk_level] in Hrun.
  inversion Hrun as [Hst]. clear Hrun.
  eexists. exists l, security, extra.
  split; [exact Hres|]. split; [exact Hl|].
  cbn [issues suggestions]. rewrite <- Hst.
  cbn [l_issues l_suggestions].
  rewrite Hsec, Hi1, Hsg2, Hs1.
  repeat split; try assumption.
  rewrite <- app_assoc. reflexivity.
Qed.

(** ** The issues of the Syntax & Style Checker *)

Lemma python_syntax_checks_bound ast_parse c :
  Forall checker_issue (fst (python_syntax_checks ast_parse c [])) /\
  match snd (python_syntax_checks ast_parse c []) with
  | Ok _ => List.length (fst (python_syntax_checks ast_parse c [])) <= 2
  | Raise _ => List.length (fst (python_syntax_checks ast_parse c [])) <= 1
  end.
Proof.
  unfold python_syntax_checks. unfold bind, lift, when, modify, ret.
  destruct (ast_parse c) as [nodes|e];
    [|cbn; split; [constructor | lia]].
  destruct (Regex.search print_statement_re c false) as [[m1|]|e1];
    cbv beta iota zeta delta [is_some];
    [ destruct (Regex.findall print_statement_re c false) as [[|x1 l1]|e1];
      cbv beta iota zeta delta [index0]
    | | ];
    try (cbn; split; [constructor | lia]);
    (destruct (Regex.search print_unquoted_re c false) as [[m2|]|e2];
     cbv beta iota zeta delta [is_some];
     [ destruct (Regex.findall print_call_re c false) as [[|x2 l2]|e2];
       cbv beta iota zeta delta [index0];
       [ | destruct (negb (contains (str1 dq) x2 || contains (str1 sq) x2)) | ]
     | | ]);
    cbn [fst snd app List.length];
    (split; [repeat constructor | lia]).
Qed.

(** X4.  The Syntax & Style Checker returns at most two issues, each of risk
    MEDIUM and of kind SYNTAX or ERROR. *)
Theorem syntax_checker_issues_bounded (ast_parse : parser) (c : string) :
  exists l,
    _analyze_python_syntax ast_parse c = Ok l /\
    List.length l <= 2 /\ Forall checker_issue l.
Proof.
  pose proof (python_syntax_checks_bound ast_parse c) as [HF HL].
  unfold _analyze_python_syntax, try_except.
  destruct (python_syntax_checks ast_parse c []) as [l [[]|e]];
    cbn [fst snd] in HF, HL.
  - exists l. auto.
  - cbn [any_Exception]. unfold python_syntax_handler, modify.
    assert (Hone : forall kind text,
               kind = "SYNTAX" \/ kind = "ERROR" ->
               List.length (l ++ [mk_issue kind "MEDIUM" text c]) <= 2 /\
               Forall checker_issue (l ++ [mk_issue kind "MEDIUM" text c])).
    { intros kind text Hk. rewrite length_app. cbn [List.length].
      split; [lia|]. apply Forall_app. split; [exact HF|].
      constructor; [|constructor]. split; [reflexivity | exact Hk]. }
    destruct (is_SyntaxError e); eexists; (split; [reflexivity|]);
      apply Hone; auto.
Qed.

(** ** Sources that do not mention [print] *)

Lemma search_from_needs p needle :
  (forall prev s rest,
      match_here false p prev s = Some rest -> String.prefix needle s = true) ->
  forall s prev m,
    search_from false p prev s = Some m -> contains needle s = true.
Proof.
  intros Hp. induction s as [|c s IH]; intros prev m H; cbn [search_from] in H.
  - destruct (match_here false p prev EmptyString) as [rest|] eqn:E;
      [|discriminate].
    apply contains_prefix. apply (Hp _ _ _ E).
  - destruct (match_here false p prev (String c s)) as [rest|] eqn:E.
    + apply contains_prefix. apply (Hp _ _ _ E).
    + apply contains_cons. apply (IH _ _ H).
Qed.

Lemma match_print_prefix tail prev s rest :
  match_here false
    (Cls (Lit "p") One :: Cls (Lit "r") One :: Cls (Lit "i") One
     :: Cls (Lit "n") One :: Cls (Lit "t") One :: tail) prev s = Some rest ->
  String.prefix "print" s = true.
Proof.
  intros H. cbn [match_here] in H. unfold cset_match in H.
  destruct s as [|c1 s]; [discriminate|].
  destruct (Ascii.eqb_spec c1 "p"); [subst c1 | discriminate].
  destruct s as [|c2 s]; [discriminate|].
  destruct (Ascii.eqb_spec c2 "r"); [subst c2 | discriminate].
  destruct s as [|c3 s]; [discriminate|].
  destruct (Ascii.eqb_spec c3 "i"); [subst c3 | discriminate].
  destruct s as [|c4 s]; [discriminate|].
  destruct (Ascii.eqb_spec c4 "n"); [subst c4 | discriminate].
  destruct s as [|c5 s]; [discriminate|].
  destruct (Ascii.eqb_spec c5 "t"); [subst c5 | discriminate].
  destruct s; reflexivity.
Qed.

Lemma match_here_boundary ic p prev s :
  match_here ic (Boundary :: p) prev s =
  if at_boundary prev s then match_here ic p prev s else None.
Proof. reflexivity. Qed.

Lemma print_free_statement_search c :
  contains "print" c = false ->
  Regex.search print_statement_re c false = Ok None.
Proof.
  intros Hc. unfold Regex.search.
  assert (exists tail,
             compile print_statement_re =
             Ok (Boundary :: Cls (Lit "p") One :: Cls (Lit "r") One
                 :: Cls (Lit "i") One :: Cls (Lit "n") One
                 :: Cls (Lit "t") One :: tail)) as [tail Ht]
      by (eexists; vm_compute; reflexivity).
  rewrite Ht. destruct (search_from false _ None c) as [m|] eqn:E;
    [|reflexivity].
  apply search_from_needs with (needle := "print") in E.
  - rewrite E in Hc. discriminate.
  - intros prev s rest H. rewrite match_here_boundary in H.
    destruct (at_boundary prev s); [|discriminate].
    apply (@match_print_prefix tail prev s rest H).
Qed.

Lemma print_free_call_search c :
  contains "print" c = false ->
  Regex.search print_unquoted_re c false = Ok None.
Proof.
  intros Hc. unfold Regex.search.
  assert (exists tail,
             compile print_unquoted_re =
             Ok (Cls (Lit "p") One :: Cls (Lit "r") One
                 :: Cls (Lit "i") One :: Cls (Lit "n") One
                 :: Cls (Lit "t") One :: tail)) as [tail Ht]
      by (eexists; vm_compute; reflexivity).
  rewrite Ht. destruct (search_from false _ None c) as [m|] eqn:E;
    [|reflexivity].
  apply search_from_needs with (needle := "print") in E.
  - rewrite E in Hc. discriminate.
  - intros prev s rest H. apply (@match_print_prefix tail prev s rest H).
Qed.

(** X5.  A source that parses and in which [print] does not occur gets no issue
    from the Syntax & Style Checker. *)
Theorem print_free_source_has_no_checker_issue
        (ast_parse : parser) (c : string) (nodes : list ast_node) :
  ast_parse c = Ok nodes ->
  contains "print" c = false ->
  _analyze_python_syntax ast_parse c = Ok [].
Proof.
  intros Hp Hc.
  unfold _analyze_python_syntax, try_except, python_syntax_checks.
  unfold bind, lift. rewrite Hp.
  rewrite (print_free_statement_search c Hc).
  cbv beta iota zeta delta [is_some when ret].
  rewrite (print_free_call_search c Hc). reflexivity.
Qed.

Lemma print_free_source_has_no_checker_issue_witness :
  _analyze_python_syntax Examples.accepting_parser "import os" = Ok [].
Proof.
  apply (@print_free_source_has_no_checker_issue
           Examples.accepting_parser "import os" []); reflexivity.
Defined.

(** ** Splitting a text into lines and joining them *)

Lemma split_on_cons sep s : exists w ws, split_on sep s = (w :: ws)%list.
Proof.
  induction s as [|c s IH]; cbn [split_on]; [eauto|].
  destruct (Ascii.eqb c sep); [eauto|].
  destruct IH as (w & ws & ->). eauto.
Qed.

Lemma join_cons_char sep c w ws :
  join sep (String c w :: ws) = String c (join sep (w :: ws)).
Proof. destruct ws; reflexivity. Qed.

(** ['\n'.join(s.split('\n')) == s] *)
Lemma join_split s : join (str1 nl) (split_on nl s) = s.
Proof.
  induction s as [|c s IH]; [reflexivity|]. cbn [split_on].
  destruct (split_on_cons nl s) as (w & ws & Hs). rewrite Hs in *.
  destruct (Ascii.eqb_spec c nl) as [->|Hc].
  - change (join (str1 nl) (EmptyString :: w :: ws))
      with (EmptyString ++ str1 nl ++ join (str1 nl) (w :: ws)).
    rewrite IH. reflexivity.
  - rewrite join_cons_char, IH. reflexivity.
Qed.

Lemma split_nl_free w : nl_free w -> split_on nl w = [w].
Proof.
  unfold nl_free. induction w as [|c w IH]; intros H; [reflexivity|].
  cbn [has_char] in H. apply orb_false_iff in H. destruct H as [Hc Hw].
  cbn [split_on]. rewrite Hc, (IH Hw). reflexivity.
Qed.

Lemma split_line_then w t :
  nl_free w -> split_on nl (w ++ String nl t) = (w :: split_on nl t)%list.
Proof.
  unfold nl_free. induction w as [|c w IH]; intros H.
  - cbn [append split_on]. rewrite Ascii.eqb_refl. reflexivity.
  - cbn [has_char] in H. apply orb_false_iff in H. destruct H as [Hc Hw].
    cbn [append split_on]. rewrite Hc, (IH Hw). reflexivity.
Qed.

(** [('\n'.join(lines)).split('\n') == lines] for lines without newline. *)
Lemma split_join lines :
  lines <> [] -> Forall nl_free lines ->
  split_on nl (join (str1 nl) lines) = lines.
Proof.
  induction lines as [|w ws IH]; intros Hne HF; [contradiction|].
  inversion HF as [|? ? Hw Hws]; subst.
  destruct ws as [|w' ws'].
  - cbn [join]. apply split_nl_free; assumption.
  - change (join (str1 nl) (w :: w' :: ws'))
      with (w ++ String nl (join (str1 nl) (w' :: ws'))).
    rewrite (split_line_then _ Hw), IH; [reflexivity | discriminate | assumption].
Qed.

Lemma split_on_nl_free s : Forall nl_free (split_on nl s).
Proof.
  induction s as [|c s IH]; cbn [split_on].
  - constructor; [reflexivity | constructor].
  - destruct (Ascii.eqb c nl) eqn:Hc.
    + constructor; [reflexivity | exact IH].
    + destruct (split_on nl s) as [|w ws];
        [constructor; [unfold nl_free; cbn; rewrite Hc; reflexivity
                      | constructor]|].
      inversion IH; subst. constructor; [|assumption].
      unfold nl_free in *. cbn [has_char]. rewrite Hc. assumption.
Qed.

Lemma has_char_append c a b :
  has_char c (a ++ b) = has_char c a || has_char c b.
Proof.
  induction a as [|x a IH]; cbn; [reflexivity|].
  rewrite IH. apply orb_assoc.
Qed.

Lemma spaces_nl_free n : nl_free (spaces n).
Proof. unfold nl_free. induction n; cbn; auto. Qed.

(** ** The corrector *)

Lemma correct_lines_cons line rest :
  correct_lines (line :: rest) =
  (line :: (if is_header line then placeholder line else [])
        ++ correct_lines rest)%list.
Proof.
  cbn [correct_lines]. rewrite has_docstring_scan_false.
  rewrite andb_true_r. reflexivity.
Qed.

Lemma placeholder_length line : List.length (placeholder line) = 3.
Proof. reflexivity. Qed.

Lemma lstrip_spaces n x : lstrip (spaces n ++ x) = lstrip x.
Proof. induction n as [|n IH]; [reflexivity | cbn; exact IH]. Qed.

Lemma is_header_spaces n x : is_header (spaces n ++ x) = is_header x.
Proof. unfold is_header, strip. rewrite lstrip_spaces. reflexivity. Qed.

Lemma placeholder_no_header line :
  filter is_header (placeholder line) = [].
Proof.
  unfold placeholder. cbn [filter]. rewrite !is_header_spaces.
  destruct (startswith (strip line) "def "); rewrite !is_header_spaces;
    reflexivity.
Qed.

Lemma placeholder_nl_free line : Forall nl_free (placeholder line).
Proof.
  unfold placeholder.
  assert (H : forall n x, nl_free x -> nl_free (spaces n ++ x)).
  { intros n x Hx. unfold nl_free in *. rewrite has_char_append, Hx.
    rewrite (spaces_nl_free n). reflexivity. }
  repeat constructor; try (apply H; reflexivity).
  destruct (startswith (strip line) "def "); apply H; reflexivity.
Qed.

Lemma correct_lines_length lines :
  List.length (correct_lines lines) =
  List.length lines + 3 * List.length (filter is_header lines).
Proof.
  induction lines as [|line rest IH]; [reflexivity|].
  rewrite correct_lines_cons. cbn [List.length filter].
  rewrite length_app, IH.
  destruct (is_header line); rewrite ?placeholder_length;
    cbn [List.length]; lia.
Qed.

Lemma correct_lines_headers lines :
  filter is_header (correct_lines lines) = filter is_header lines.
Proof.
  induction lines as [|line rest IH]; [reflexivity|].
  rewrite correct_lines_cons. cbn [filter]. rewrite filter_app, IH.
  destruct (is_header line) eqn:Hh.
  - rewrite placeholder_no_header. reflexivity.
  - reflexivity.
Qed.

Lemma correct_lines_nl_free lines :
  Forall nl_free lines -> Forall nl_free (correct_lines lines).
Proof.
  induction 1 as [|line rest Hl Hrest IH]; [constructor|].
  rewrite correct_lines_cons. constructor; [assumption|].
  apply Forall_app. split; [|assumption].
  destruct (is_header line); [apply placeholder_nl_free | constructor].
Qed.

Lemma correct_lines_no_header lines :
  filter is_header lines = [] -> correct_lines lines = lines.
Proof.
  induction lines as [|line rest IH]; [reflexivity|].
  rewrite correct_lines_cons. cbn [filter].
  destruct (is_header line); [discriminate|].
  intros H. cbn [app]. rewrite (IH H). reflexivity.
Qed.

Lemma corrected_lines c :
  split_on nl (_generate_corrected_code c) = correct_lines (split_on nl c).
Proof.
  unfold _generate_corrected_code. apply split_join.
  - destruct (split_on_cons nl c) as (w & ws & ->).
    rewrite correct_lines_cons. discriminate.
  - apply correct_lines_nl_free, split_on_nl_free.
Qed.

Lemma line_count_positive c : 1 <= line_count c.
Proof.
  unfold line_count. destruct (split_on_cons nl c) as (w & ws & ->).
  cbn. lia.
Qed.

Lemma corrector_line_counts (c : string) :
  line_count (_generate_corrected_code c) = line_count c + 3 * header_count c /\
  header_count (_generate_corrected_code c) = header_count c /\
  (_generate_corrected_code c = c <-> header_count c = 0) /\
  line_count (_generate_corrected_code (_generate_corrected_code c)) =
  line_count c + 6 * header_count c.
Proof.
  assert (H1 : forall x, line_count (_generate_corrected_code x)
                         = line_count x + 3 * header_count x).
  { intros x. unfold line_count, header_count.
    rewrite corrected_lines. apply correct_lines_length. }
  assert (H2 : forall x, header_count (_generate_corrected_code x)
                         = header_count x).
  { intros x. unfold header_count. rewrite corrected_lines.
    rewrite correct_lines_headers. reflexivity. }
  split; [apply H1|]. split; [apply H2|]. split.
  - split.
    + intros Heq. pose proof (H1 c) as H. rewrite Heq in H. lia.
    + intros H0. unfold header_count in H0.
      apply length_zero_iff_nil in H0.
      unfold _generate_corrected_code.
      rewrite (correct_lines_no_header _ H0). apply join_split.
  - rewrite H1, H2, H1. lia.
Qed.

(** X6.  The corrected text has three lines more for each [def] or [class]
    header line of the text and as many header lines as the text; so a text
    without header line, and no other, is returned unchanged, and correcting
    the corrected text adds three lines per header once more. *)
Theorem corrector_adds_three_lines_per_header (c : string) :
  line_count (_generate_corrected_code c) = line_count c + 3 * header_count c /\
  header_count (_generate_corrected_code c) = header_count c /\
  (_generate_corrected_code c = c <-> header_count c = 0) /\
  line_count (_generate_corrected_code (_generate_corrected_code c)) =
  line_count c + 6 * header_count c.
Proof. exact (corrector_line_counts c). Qed.

Lemma corrector_adds_three_lines_per_header_witness :
  header_count "x = 1" = 0 /\
  _generate_corrected_code "x = 1" = "x = 1" /\
  line_count (_generate_corrected_code Examples.documented_def) = 6.
Proof.
  destruct (corrector_adds_three_lines_per_header "x = 1")
    as (_ & _ & Hfix & _).
  destruct (corrector_adds_three_lines_per_header Examples.documented_def)
    as (Hlines & _).
  split; [reflexivity|]. split.
  - apply Hfix. reflexivity.
  - rewrite Hlines. reflexivity.
Defined.

(** X7.  The field [corrected_code] of a result is empty exactly when the command
    is not classified Python-like. *)
Theorem corrected_code_empty_iff_not_code (ast_parse : parser) (c : string) :
  exists r,
    analyze_command ast_parse c = Ok r /\
    (corrected_code r = EmptyString <-> is_code r = false).
Proof.
  destruct (analyze_command_run ast_parse c) as (st & _ & Hres).
  eexists. split; [exact Hres|]. cbn [corrected_code is_code].
  destruct (_looks_like_python c) eqn:Hl; [|tauto].
  split; [|discriminate]. intros He. exfalso.
  destruct (corrector_line_counts c) as (H1 & _ & H3 & _).
  rewrite He in H1. pose proof (line_count_positive c) as Hp.
  assert (header_count c = 0) as H0 by (cbn in H1; lia).
  apply H3 in H0. rewrite He in H0. subst c. discriminate Hl.
Qed.

Lemma corrected_code_empty_iff_not_code_witness :
  exists r,
    analyze_command Examples.accepting_parser "ls -la" = Ok r /\
    corrected_code r = EmptyString.
Proof.
  destruct (corrected_code_empty_iff_not_code Examples.accepting_parser
              "ls -la") as (r & Hr & Hiff).
  exists r. split; [exact Hr|]. apply Hiff.
  vm_compute in Hr. inversion Hr. reflexivity.
Defined.

End CommandExtras.

(* ===================================================================== *)
(** * Properties of cli.py *)
(* ===================================================================== *)

Module CliProps.

Import PyStr CommandAnalyzer Observe Cli CommandExtras.

Lemma review_issues_keep_code issues code :
  fold_left review_issue issues code = code.
Proof.
  revert code. induction issues as [|i rest IH]; intros code; [reflexivity|].
  cbn [fold_left]. rewrite IH. unfold review_issue.
  destruct (contains "snake_case" (lower (Analyzer.i_message i)));
    [destruct (contains "Function name" (Analyzer.i_message i)); reflexivity|].
  destruct (contains "PascalCase" (lower (Analyzer.i_message i))); reflexivity.
Qed.

(** X8.  The corrected code of the command line tool does not depend on the
    analysis result: it is the text [_generate_corrected_code] returns.  In
    [execute_code_cli] an exception of [analyze_code] is passed on before any
    correction is printed; when [analyze_code] returns, the tool announces
    that no correction is needed exactly when the code has no [def] or
    [class] header line. *)
Theorem cli_correction_ignores_analysis :
  (forall code analysis_result,
      generate_corrected_code code analysis_result
      = _generate_corrected_code code) /\
  (forall w temp_file code e,
      Analyzer.analyze_code w temp_file = Raise e ->
      corrections_section w temp_file code = Raise e) /\
  (forall w temp_file code r,
      Analyzer.analyze_code w temp_file = Ok r ->
      exists text,
        corrections_section w temp_file code = Ok text /\
        (text = "No corrections needed - code follows best practices!"
         <-> header_count code = 0)).
Proof.
  assert (Hg : forall code analysis_result,
             generate_corrected_code code analysis_result
             = _generate_corrected_code code).
  { intros code analysis_result. unfold generate_corrected_code.
    rewrite review_issues_keep_code. reflexivity. }
  split; [exact Hg|]. split.
  - intros w temp_file code e H. unfold corrections_section. rewrite H.
    reflexivity.
  - intros w temp_file code r H. unfold corrections_section. rewrite H.
    eexists. split; [reflexivity|].
    destruct (corrector_line_counts code) as (H1 & _ & H3 & _).
    unfold suggested_corrections. rewrite Hg.
    destruct (String.eqb_spec (_generate_corrected_code code) code)
      as [He|Hn]; cbn [negb].
    + split; [intros _; apply H3; exact He | reflexivity].
    + split.
      * intros Hb. exfalso. rewrite Hb in H1.
        change (line_count
                  "No corrections needed - code follows best practices!")
          with 1 in H1.
        pose proof (line_count_positive code) as Hpos.
        assert (header_count code = 0) as Hzero by lia.
        apply Hn. apply H3. exact Hzero.
      * intros Hzero. exfalso. apply Hn. apply H3. exact Hzero.
Qed.

Lemma cli_correction_ignores_analysis_witness :
  corrections_section Examples.null_byte_world "/tmp/tmpab12.py"
    (String "000" EmptyString)
  = Raise Examples.null_byte_error /\
  corrections_section Examples.print_world "/tmp/tmpab12.py" "print(1)"
  = Ok "No corrections needed - code follows best practices!".
Proof.
  destruct cli_correction_ignores_analysis as (_ & Hraise & Hret).
  split.
  - apply Hraise. vm_compute. reflexivity.
  - destruct (Analyzer.analyze_code Examples.print_world "/tmp/tmpab12.py")
      as [r|e] eqn:E; [|vm_compute in E; discriminate].
    destruct (Hret Examples.print_world "/tmp/tmpab12.py" "print(1)" r E)
      as (text & Htext & Hiff).
    rewrite Htext. f_equal. apply Hiff. reflexivity.
Defined.

End CliProps.

(* ===================================================================== *)
(** * More on analyzer.py *)
(* ===================================================================== *)

Module AnalyzerExtras.

Import PyStr Analyzer Observe MonadFacts AnalyzerProps.

Local Open Scope Z_scope.

Lemma lint_penalty_bounds type : 0 <= lint_penalty type <= 20.
Proof.
  unfold lint_penalty.
  destruct (String.eqb type "error"); [lia|].
  destruct (String.eqb type "warning"); lia.
Qed.

(** ** Invariants that follow a report step by step

    [Q] holds between the reports; [R1] once the issue of a report has been
    appended; [R2] once its points have been deducted. *)

Section Stages.

Variables Q R1 R2 : locals -> Prop.
Hypothesis S_issue : forall i st, Q st -> R1 (append_issue i st).
Hypothesis S_deduct : forall n st, 0 <= n <= 20 -> R1 st -> R2 (deduct n st).
Hypothesis S_suggest : forall s st, R2 st -> Q (append_suggestion s st).
Hypothesis S_R1 : forall st, R1 st -> Q st.
Hypothesis S_R2 : forall st, R2 st -> Q st.
Hypothesis S_code : forall c st, Q st -> Q (set_code c st).

Lemma staged_report i : preserves Q (modify (append_issue i)).
Proof. intros s H. cbn. auto. Qed.

Lemma staged_report_deduct i n :
  0 <= n <= 20 ->
  preserves Q (bind (modify (append_issue i)) (fun _ => modify (deduct n))).
Proof. intros Hn s H. cbn. auto. Qed.

Lemma staged_report_deduct_suggest i n sg :
  0 <= n <= 20 ->
  preserves Q (bind (modify (append_issue i)) (fun _ =>
               bind (modify (deduct n)) (fun _ =>
               modify (append_suggestion sg)))).
Proof. intros Hn s H. cbn. auto. Qed.

Lemma staged_lint_check w filepath : preserves Q (lint_check w filepath).
Proof.
  unfold lint_check. apply preserves_try.
  - apply preserves_bind; [apply preserves_lift | intros out].
    apply preserves_for_each. intros entry _.
    apply preserves_bind; [apply preserves_lift | intros f].
    apply staged_report_deduct. apply lint_penalty_bounds.
  - intros e. apply staged_report.
Qed.

Lemma staged_complexity_check w filepath :
  preserves Q (complexity_check w filepath).
Proof.
  unfold complexity_check. apply preserves_try.
  - apply preserves_bind; [apply preserves_lift | intros code].
    apply preserves_bind; [apply preserves_modify; auto | intros _].
    apply preserves_bind; [apply preserves_lift | intros blocks].
    apply preserves_bind.
    + apply preserves_for_each. intros func _. apply preserves_when.
      apply staged_report_deduct_suggest. lia.
    + intros _. apply preserves_bind; [apply preserves_lift | intros loc].
      apply preserves_when. apply staged_report_deduct_suggest. lia.
  - intros e. apply staged_report.
Qed.

Lemma staged_naming_check w : preserves Q (naming_check w).
Proof.
  unfold naming_check. apply preserves_try.
  - apply preserves_bind.
    + unfold read_code. apply preserves_bind; [apply preserves_get|].
      intros st. destruct (l_code st);
        [apply preserves_ret | apply preserves_raise].
    + intros code.
      apply preserves_bind; [apply preserves_lift | intros nodes].
      apply preserves_for_each. intros node _.
      destruct node; cbn [naming_step]; try apply preserves_ret;
        apply preserves_when; apply staged_report_deduct_suggest; lia.
  - intros e. apply staged_report_deduct. lia.
Qed.

(** The invariant at the return of [analyze_code]. *)
Lemma staged_result w filepath r :
  Q initial_locals ->
  analyze_code w filepath = Ok r ->
  exists st,
    Q st /\ issues r = l_issues st /\ suggestions r = l_suggestions st /\
    score r = Z.max 0 (l_score st).
Proof.
  intros H0 Hr.
  destruct (analyze_code_run w filepath Hr)
    as (s1 & s2 & s3 & H1 & H2 & H3 & ->).
  exists s3. cbn [issues suggestions score]. split; [|auto].
  pose proof (staged_lint_check w filepath H0) as F1.
  rewrite H1 in F1. cbn [fst] in F1.
  pose proof (staged_complexity_check w filepath F1) as F2.
  rewrite H2 in F2. cbn [fst] in F2.
  pose proof (staged_naming_check w F2) as F3.
  rewrite H3 in F3. exact F3.
Qed.

End Stages.

(** ** What an issue can cost, and where suggestions come from *)

(** X9.  No issue costs more than 20 points: the score of a result is at least
    100 minus 20 times the number of its issues. *)
Theorem score_lost_per_issue_at_most_20
        (w : world) (filepath : string) (r : analysis) :
  analyze_code w filepath = Ok r ->
  100 - 20 * Z.of_nat (List.length (issues r)) <= score r.
Proof.
  intros Hr.
  set (Q := fun st : locals =>
              100 - 20 * Z.of_nat (List.length (l_issues st)) <= l_score st).
  set (R1 := fun st : locals =>
               120 - 20 * Z.of_nat (List.length (l_issues st)) <= l_score st).
  destruct (@staged_result Q R1 Q) with (w := w) (filepath := filepath) (r := r)
    as (st & HQ & Hi & _ & Hs); unfold Q, R1 in *; try assumption.
  - intros i st H. cbn [append_issue l_issues l_score].
    rewrite length_app. cbn [List.length]. lia.
  - intros n st Hn H. cbn [deduct l_issues l_score]. lia.
  - intros sg st H. exact H.
  - intros st H. lia.
  - intros st H. exact H.
  - intros c st H. exact H.
  - cbn. lia.
  - rewrite Hi, Hs. lia.
Qed.

Lemma score_lost_per_issue_at_most_20_witness :
  exists r, analyze_code Examples.myfunc_world "my_func.py" = Ok r /\
            100 - 20 * Z.of_nat (List.length (issues r)) <= score r.
Proof.
  eexists. split; [vm_compute; reflexivity|].
  apply (@score_lost_per_issue_at_most_20 Examples.myfunc_world "my_func.py").
  vm_compute. reflexivity.
Defined.

(** X10.  Every suggestion comes with an issue: a result never has more
    suggestions than issues. *)
Theorem suggestions_never_outnumber_issues
        (w : world) (filepath : string) (r : analysis) :
  analyze_code w filepath = Ok r ->
  (List.length (suggestions r) <= List.length (issues r))%nat.
Proof.
  intros Hr.
  set (Q := fun st : locals =>
              (List.length (l_suggestions st) <= List.length (l_issues st))%nat).
  set (R1 := fun st : locals =>
               (List.length (l_suggestions st) < List.length (l_issues st))%nat).
  destruct (@staged_result Q R1 R1) with (w := w) (filepath := filepath) (r := r)
    as (st & HQ & Hi & Hsg & _); unfold Q, R1 in *; try assumption.
  - intros i st H. cbn [append_issue l_issues l_suggestions].
    rewrite length_app. cbn [List.length]. lia.
  - intros n st Hn H. exact H.
  - intros sg st H. cbn [append_suggestion l_issues l_suggestions].
    rewrite length_app. cbn [List.length]. lia.
  - intros st H. lia.
  - intros st H. lia.
  - intros c st H. exact H.
  - cbn. lia.
  - rewrite Hi, Hsg. exact HQ.
Qed.

Lemma suggestions_never_outnumber_issues_witness :
  exists r, analyze_code Examples.main_world "main.py" = Ok r /\
            (List.length (suggestions r) <= List.length (issues r))%nat.
Proof.
  eexists. split; [vm_compute; reflexivity|].
  apply (@suggestions_never_outnumber_issues Examples.main_world "main.py").
  vm_compute. reflexivity.
Defined.

(** ** The naming walk on every node *)

(** X11.  A function definition whose name is not all lowercase for
    [str.islower], or has no underscore, is reported whatever the other
    checks find: the result carries the snake_case warning with the line of
    the definition and the rename suggestion, and its score is at most 98. *)
Theorem function_name_failing_test_is_reported
        (w : world) (filepath code : string) (nodes : list ast_node)
        (name : string) (lineno : Z) :
  read_text w filepath = Ok code ->
  ast_parse w code = Ok nodes ->
  In (FunctionDef name lineno) nodes ->
  negb (islower name) || negb (contains "_" name) = true ->
  exists r,
    analyze_code w filepath = Ok r /\
    In (mk_issue "warning"
          ("Function name " ++ name ++ " does not follow snake_case convention")
          (Some lineno)) (issues r) /\
    In ("Rename " ++ name ++ " to follow snake_case") (suggestions r) /\
    score r <= 98.
Proof.
  intros Hread Hparse Hin Hbad.
  apply (@bad_function_name_is_reported w filepath code nodes name lineno
           Hread Hparse Hin Hbad).
Qed.

Lemma function_name_failing_test_is_reported_witness :
  exists r,
    analyze_code Examples.myfunc_world "my_func.py" = Ok r /\
    In (mk_issue "warning"
          "Function name MyFunc does not follow snake_case convention"
          (Some 1)) (issues r) /\
    In "Rename MyFunc to follow snake_case" (suggestions r) /\
    score r <= 98.
Proof.
  apply (@function_name_failing_test_is_reported
           Examples.myfunc_world "my_func.py"
           Examples.myfunc_source
           [OtherNode; FunctionDef "MyFunc" 1; OtherNode; OtherNode]
           "MyFunc" 1).
  - reflexivity.
  - reflexivity.
  - right. left. reflexivity.
  - reflexivity.
Defined.

Lemma naming_step_class name lineno st :
  naming_step (ClassDef name lineno) st =
  (if negb (istitle name)
   then append_suggestion ("Rename " ++ name ++ " to follow PascalCase")
          (deduct 2
             (append_issue
                (mk_issue "warning"
                   ("Class name " ++ name
                      ++ " does not follow PascalCase convention")
                   (Some lineno)) st))
   else st, Ok tt).
Proof. cbn [naming_step]. destruct (negb (istitle name)); reflexivity. Qed.

(** X12.  A class definition whose name is not in title case for [str.istitle]
    (an uppercase letter after a cased one, as in [MyClass], is enough) is
    reported: the result carries the PascalCase warning and the rename
    suggestion and its score is at most 98. *)
Theorem class_name_not_title_is_reported
        (w : world) (filepath code : string) (nodes : list ast_node)
        (name : string) (lineno : Z) :
  read_text w filepath = Ok code ->
  ast_parse w code = Ok nodes ->
  In (ClassDef name lineno) nodes ->
  istitle name = false ->
  exists r,
    analyze_code w filepath = Ok r /\
    In (mk_issue "warning"
          ("Class name " ++ name ++ " does not follow PascalCase convention")
          (Some lineno)) (issues r) /\
    In ("Rename " ++ name ++ " to follow PascalCase") (suggestions r) /\
    score r <= 98.
Proof.
  intros Hread Hparse Hin Hbad.
  destruct (@analyze_code_returns w filepath code nodes Hread Hparse)
    as [r Hr].
  exists r. split; [exact Hr|].
  destruct (analyze_code_run w filepath Hr)
    as (s1 & s2 & s3 & H1 & H2 & H3 & ->).
  cbn [issues suggestions score].
  pose proof (complexity_check_binds_code w filepath s1 Hread) as Hc2.
  rewrite H2 in Hc2. cbn [fst] in Hc2.
  rewrite (@naming_check_parsed w s2 code nodes Hc2 Hparse) in H3.
  set (i := mk_issue "warning"
              ("Class name " ++ name
                 ++ " does not follow PascalCase convention") (Some lineno)).
  set (sg := "Rename " ++ name ++ " to follow PascalCase").
  set (Q := fun st : locals =>
              In i (l_issues st) /\ In sg (l_suggestions st)
              /\ l_score st <= 98).
  assert (Q s3) as (Hi & Hs & Hsc).
  { pose proof (@for_each_reaches locals _ (score_at_most 100) Q nodes
                  naming_step (ClassDef name lineno) Hin) as HH.
    assert (HI : forall node, In node nodes ->
                              preserves (score_at_most 100) (naming_step node)).
    { intros node _.
      apply naming_step_preserves with (R := score_at_most 100);
        unfold score_at_most; cbn; intros; try assumption; lia. }
    assert (HQ : forall node, In node nodes ->
                              preserves Q (naming_step node)).
    { intros node _.
      apply naming_step_preserves with (R := Q); unfold Q; auto.
      - intros j st (A & B & C). cbn. split; [|auto].
        apply in_or_app; left; exact A.
      - intros n st Hn (A & B & C). cbn. repeat split; auto; lia.
      - intros x st (A & B & C). cbn. repeat split; auto.
        apply in_or_app; left; exact B. }
    assert (Hx : forall s, score_at_most 100 s ->
                           Q (fst (naming_step (ClassDef name lineno) s))).
    { intros s Hs. rewrite naming_step_class. rewrite Hbad.
      unfold Q, score_at_most in *. cbn.
      repeat split; try lia; apply in_or_app; right; left; reflexivity. }
    assert (score_at_most 100 s2) as Hs2.
    { pose proof (@lint_check_score w filepath 100 initial_locals) as A.
      rewrite H1 in A. cbn [fst] in A.
      pose proof (@complexity_check_score w filepath 100 s1) as B.
      rewrite H2 in B. cbn [fst] in B.
      apply B. apply A. unfold score_at_most. cbn. lia. }
    specialize (HH (fun node _ => naming_step_no_raise node) HI HQ Hx s2 Hs2).
    rewrite H3 in HH. exact HH. }
  repeat split; try assumption. lia.
Qed.

Lemma class_name_not_title_is_reported_witness :
  exists r,
    analyze_code
      (mk_world (fun _ => Ok []) (fun _ => Ok "class MyClass: pass")
         (fun _ => Ok []) (fun _ => Ok 1)
         (fun _ => Ok [OtherNode; ClassDef "MyClass" 1; OtherNode])
         (fun _ => Ok ["class MyClass: pass"]))
      "shapes.py" = Ok r /\
    In (mk_issue "warning"
          "Class name MyClass does not follow PascalCase convention" (Some 1))
       (issues r) /\
    In "Rename MyClass to follow PascalCase" (suggestions r) /\
    score r <= 98.
Proof.
  apply (@class_name_not_title_is_reported _ "shapes.py"
           "class MyClass: pass"
           [OtherNode; ClassDef "MyClass" 1; OtherNode] "MyClass" 1).
  - reflexivity.
  - reflexivity.
  - right. left. reflexivity.
  - reflexivity.
Defined.

(** ** A source with a syntax error *)

(** X13.  For a readable file on which the parser raises [SyntaxError], the
    result holds the issues of the first two checks followed by one error
    issue carrying the parser's text and line, and its score is at most
    80. *)
Theorem syntax_error_costs_20
        (w : world) (filepath code msg : string) (lineno : option Z) :
  read_text w filepath = Ok code ->
  ast_parse w code = Raise (SyntaxError msg lineno) ->
  exists r,
    analyze_code w filepath = Ok r /\
    issues r =
      (l_issues (fst (complexity_check w filepath
                        (fst (lint_check w filepath initial_locals))))
       ++ [mk_issue "error" ("Syntax error: " ++ msg) lineno])%list /\
    score r <= 80.
Proof.
  intros Hread Hparse.
  destruct (lint_check_returns w filepath initial_locals) as [s1 H1].
  destruct (complexity_check_returns w filepath s1) as [s2 H2].
  pose proof (complexity_check_binds_code w filepath s1 Hread) as Hc2.
  rewrite H2 in Hc2. cbn [fst] in Hc2.
  assert (score_at_most 100 s2) as Hs2.
  { pose proof (@lint_check_score w filepath 100 initial_locals) as A.
    rewrite H1 in A. cbn [fst] in A.
    pose proof (@complexity_check_score w filepath 100 s1) as B.
    rewrite H2 in B. cbn [fst] in B.
    apply B. apply A. unfold score_at_most. cbn. lia. }
  eexists. split.
  - unfold analyze_code, run_checks, bind. rewrite H1, H2.
    rewrite (@naming_check_syntax_error w s2 code (SyntaxError msg lineno)
               Hc2 Hparse eq_refl).
    reflexivity.
  - rewrite H1. cbn [fst]. rewrite H2. cbn [fst].
    cbn [issues score modify set_score deduct append_issue l_issues l_score
         exn_str syntax_error_lineno fst].
    unfold score_at_most in Hs2. split; [reflexivity | lia].
Qed.

Lemma syntax_error_costs_20_witness :
  exists r,
    analyze_code
      (mk_world (fun _ => Ok []) (fun _ => Ok "def f(:")
         (fun _ => Raise (SyntaxError "invalid syntax" (Some 1)))
         (fun _ => Ok 1)
         (fun _ => Raise (SyntaxError "invalid syntax" (Some 1)))
         (fun _ => Ok ["def f(:"]))
      "broken.py" = Ok r /\
    score r <= 80.
Proof.
  destruct (@syntax_error_costs_20
              (mk_world (fun _ => Ok []) (fun _ => Ok "def f(:")
                 (fun _ => Raise (SyntaxError "invalid syntax" (Some 1)))
                 (fun _ => Ok 1)
                 (fun _ => Raise (SyntaxError "invalid syntax" (Some 1)))
                 (fun _ => Ok ["def f(:"]))
              "broken.py" "def f(:" "invalid syntax" (Some 1)
              eq_refl eq_refl)
    as (r & Hr & _ & Hs).
  exists r. auto.
Defined.

(** ** A failing lint pass *)

Lemma prepend_append_issue pre i st :
  append_issue i (prepend_issues pre st) = prepend_issues pre (append_issue i st).
Proof.
  unfold append_issue, prepend_issues. cbn. rewrite app_assoc. reflexivity.
Qed.

Lemma framed_ret {A} (a : A) : framed (ret a).
Proof. intros pre st. reflexivity. Qed.

Lemma framed_raise {A} e : framed (raise (A:=A) e).
Proof. intros pre st. reflexivity. Qed.

Lemma framed_lift {A} (r : result A) : framed (lift r).
Proof. intros pre st. reflexivity. Qed.

Lemma framed_modify f :
  (forall pre st, f (prepend_issues pre st) = prepend_issues pre (f st)) ->
  framed (modify f).
Proof. intros Hf pre st. unfold modify. cbn. rewrite Hf. reflexivity. Qed.

Lemma framed_bind {A B} (m : M locals A) (k : A -> M locals B) :
  framed m -> (forall a, framed (k a)) -> framed (bind m k).
Proof.
  intros Hm Hk pre st. unfold bind. rewrite Hm.
  destruct (m st) as [s' [a|e]]; cbn [fst snd]; [|reflexivity].
  rewrite Hk. destruct (k a s'); reflexivity.
Qed.

Lemma framed_try {A} (body : M locals A) catches handler :
  framed body -> (forall e, framed (handler e)) ->
  framed (try_except body catches handler).
Proof.
  intros Hb Hh pre st. unfold try_except. rewrite Hb.
  destruct (body st) as [s' [a|e]]; cbn [fst snd]; [reflexivity|].
  destruct (catches e); [|reflexivity].
  rewrite Hh. destruct (handler e s'); reflexivity.
Qed.

Lemma framed_when b (body : M locals unit) : framed body -> framed (when b body).
Proof. intros H. destruct b; [exact H | apply framed_ret]. Qed.

Lemma framed_for_each {X} (l : list X) (body : X -> M locals unit) :
  (forall x, framed (body x)) -> framed (for_each l body).
Proof.
  intros Hb. induction l as [|x rest IH]; cbn [for_each].
  - apply framed_ret.
  - apply framed_bind; [apply Hb | intros _; exact IH].
Qed.

Lemma framed_append_issue i : framed (modify (append_issue i)).
Proof. apply framed_modify. intros. apply prepend_append_issue. Qed.

Lemma framed_deduct n : framed (modify (deduct n)).
Proof. apply framed_modify. reflexivity. Qed.

Lemma framed_append_suggestion sg : framed (modify (append_suggestion sg)).
Proof. apply framed_modify. reflexivity. Qed.

Lemma framed_read_code : framed read_code.
Proof.
  intros pre st. unfold read_code, bind, get. cbn [prepend_issues l_code].
  destruct (l_code st); reflexivity.
Qed.

Ltac framed_steps :=
  repeat first
    [ apply framed_append_issue | apply framed_deduct
    | apply framed_append_suggestion | apply framed_lift | apply framed_ret
    | apply framed_read_code | apply framed_when
    | apply framed_for_each; intros ?
    | apply framed_bind; [|intros ?]
    | apply framed_try; [|intros ?] ].

Lemma framed_complexity_check w filepath : framed (complexity_check w filepath).
Proof.
  unfold complexity_check. framed_steps.
  apply framed_modify. reflexivity.
Qed.

Lemma framed_naming_check w : framed (naming_check w).
Proof.
  unfold naming_check. framed_steps.
  match goal with x : ast_node |- _ => destruct x end;
    cbn [naming_step]; framed_steps.
Qed.

(** X14.  When the lint pass cannot be run or its output cannot be decoded, the
    result is the one [analyze_code] returns when the linter reports nothing,
    with one error issue describing the failure before all others: the score,
    the suggestions and the other issues are the same, and the call raises in
    one case exactly when it raises in the other. *)
Theorem lint_failure_costs_no_point
        (w : world) (filepath : string) (e : exn) :
  run_pylint w filepath = Raise e ->
  match analyze_code (with_lint w (fun _ => Ok [])) filepath,
        analyze_code w filepath with
  | Ok r0, Ok r =>
      issues r =
        (mk_issue "error" ("Pylint failed: " ++ exn_str e) (Some 0)
           :: issues r0)%list /\
      score r = score r0 /\ suggestions r = suggestions r0 /\
      code_lines r = code_lines r0 /\ filename r = filename r0
  | Raise e0, Raise e1 => e0 = e1
  | _, _ => False
  end.
Proof.
  intros Hlint.
  set (err := mk_issue "error" ("Pylint failed: " ++ exn_str e) (Some 0)).
  set (rest := bind (complexity_check w filepath) (fun _ =>
               bind (naming_check w) (fun _ =>
               modify (fun st => set_score (Z.max 0 (l_score st)) st)))).
  assert (Hrest : framed rest).
  { unfold rest. apply framed_bind; [apply framed_complexity_check|intros _].
    apply framed_bind; [apply framed_naming_check|intros _].
    apply framed_modify. reflexivity. }
  assert (H0 : analyze_code (with_lint w (fun _ => Ok [])) filepath =
               match rest initial_locals with
               | (st, Ok _) =>
                   Ok (mk_analysis (basename filepath) (l_issues st)
                         (l_score st) (l_suggestions st)
                         (capture_lines w filepath) [])
               | (_, Raise x) => Raise x
               end) by reflexivity.
  assert (H1 : analyze_code w filepath =
               match rest (prepend_issues [err] initial_locals) with
               | (st, Ok _) =>
                   Ok (mk_analysis (basename filepath) (l_issues st)
                         (l_score st) (l_suggestions st)
                         (capture_lines w filepath) [])
               | (_, Raise x) => Raise x
               end).
  { unfold analyze_code, run_checks. unfold bind at 1.
    unfold lint_check, try_except. unfold bind at 1. unfold lift at 1.
    rewrite Hlint. reflexivity. }
  rewrite H0, H1, Hrest.
  destruct (rest initial_locals) as [st [[]|x]]; cbn [fst snd].
  - cbn. auto.
  - reflexivity.
Qed.

Lemma lint_failure_costs_no_point_witness :
  exists r0 r,
    analyze_code
      (with_lint
         (with_lint Examples.main_world
            (fun _ => Raise (OSError "No such file or directory: 'pylint'")))
         (fun _ => Ok [])) "main.py" = Ok r0 /\
    analyze_code
      (with_lint Examples.main_world
         (fun _ => Raise (OSError "No such file or directory: 'pylint'")))
      "main.py" = Ok r /\
    score r = score r0 /\ score r = 98.
Proof.
  pose proof (@lint_failure_costs_no_point
                (with_lint Examples.main_world
                   (fun _ => Raise (OSError "No such file or directory: 'pylint'")))
                "main.py" (OSError "No such file or directory: 'pylint'")
                eq_refl) as H.
  destruct (analyze_code
              (with_lint
                 (with_lint Examples.main_world
                    (fun _ => Raise (OSError "No such file or directory: 'pylint'")))
                 (fun _ => Ok [])) "main.py") as [r0|e0] eqn:E0;
    destruct (analyze_code
                (with_lint Examples.main_world
                   (fun _ => Raise (OSError "No such file or directory: 'pylint'")))
                "main.py") as [r|e1] eqn:E1;
    try contradiction.
  - exists r0, r. destruct H as (_ & Hs & _).
    repeat split; try assumption.
    vm_compute in E1. inversion E1. reflexivity.
  - vm_compute in E0. discriminate.
Defined.

(** ** A file with nothing to report *)

Lemma for_each_skip {S X} (l : list X) (body : X -> M S unit) :
  (forall x st, In x l -> body x st = (st, Ok tt)) ->
  forall st, for_each l body st = (st, Ok tt).
Proof.
  induction l as [|x rest IH]; intros Hb st; [reflexivity|].
  cbn [for_each]. unfold bind. rewrite Hb by (left; reflexivity).
  apply IH. intros y s Hy. apply Hb. right; exact Hy.
Qed.

Lemma naming_step_well_named node st :
  well_named node = true -> naming_step node st = (st, Ok tt).
Proof.
  destruct node as [name lineno|name lineno|]; cbn [well_named naming_step];
    intros H; [| |reflexivity].
  - apply negb_true_iff in H. rewrite H. reflexivity.
  - rewrite H. reflexivity.
Qed.

(** X15.  When the linter reports nothing, no block has a complexity above
    10, every function and class name passes the naming tests and the call
    for the raw metrics of line 50 raises, [analyze_code] returns the score
    100 with no suggestion and with one issue, the error issue of the
    complexity check that carries the text of the exception. *)
Theorem clean_file_keeps_100_with_one_error
        (w : world) (filepath code : string)
        (blocks : list cc_block) (nodes : list ast_node) (e : exn) :
  run_pylint w filepath = Ok [] ->
  read_text w filepath = Ok code ->
  cc_visit w code = Ok blocks ->
  Forall (fun b => b_complexity b <= 10) blocks ->
  raw_loc w code = Raise e ->
  ast_parse w code = Ok nodes ->
  forallb well_named nodes = true ->
  analyze_code w filepath =
  Ok (mk_analysis (basename filepath)
        [mk_issue "error" ("Complexity analysis failed: " ++ exn_str e)
           (Some 0)]
        100 [] (capture_lines w filepath) []).
Proof.
  intros Hlint Hread Hcc Hblocks Hloc Hparse Hnames.
  set (err := mk_issue "error" ("Complexity analysis failed: " ++ exn_str e)
                (Some 0)).
  assert (H1 : lint_check w filepath initial_locals = (initial_locals, Ok tt)).
  { unfold lint_check, try_except, bind, lift. rewrite Hlint. reflexivity. }
  assert (H2 : complexity_check w filepath initial_locals
               = (append_issue err (set_code code initial_locals), Ok tt)).
  { unfold complexity_check, try_except. unfold bind at 1. unfold lift at 1.
    rewrite Hread. unfold bind at 1. unfold modify at 1.
    unfold bind at 1. unfold lift at 1. rewrite Hcc.
    unfold bind at 1. rewrite for_each_skip.
    - unfold bind, lift. rewrite Hloc. reflexivity.
    - intros b st Hb. rewrite Forall_forall in Hblocks.
      specialize (Hblocks b Hb). cbv beta in Hblocks.
      destruct (Z.ltb_spec 10 (b_complexity b)); [lia | reflexivity]. }
  assert (H3 : naming_check w (append_issue err (set_code code initial_locals))
               = (append_issue err (set_code code initial_locals), Ok tt)).
  { assert (code_bound_to code
              (append_issue err (set_code code initial_locals))) as Hc
        by reflexivity.
    rewrite (@naming_check_parsed w _ code nodes Hc Hparse).
    apply for_each_skip. intros node st Hn.
    apply naming_step_well_named.
    rewrite forallb_forall in Hnames. apply Hnames. exact Hn. }
  unfold analyze_code, run_checks, bind. rewrite H1, H2, H3. reflexivity.
Qed.

Lemma clean_file_keeps_100_with_one_error_witness :
  analyze_code Examples.no_raw_metrics_world "my_module.py" =
  Ok (mk_analysis "my_module.py"
        [mk_issue "error"
           "Complexity analysis failed: module 'radon.metrics' has no attribute 'raw_metrics'"
           (Some 0)]
        100 [] ["def my_func():"; "    pass"] []).
Proof.
  apply (@clean_file_keeps_100_with_one_error
           Examples.no_raw_metrics_world "my_module.py"
           ("def my_func():" ++ str1 nl ++ "    pass" ++ str1 nl)
           [mk_block "my_func" 1 1]
           [OtherNode; FunctionDef "my_func" 1; OtherNode; OtherNode]
           Examples.no_raw_metrics);
    try reflexivity.
  repeat constructor; cbn; lia.
Defined.

End AnalyzerExtras.

(* ===================================================================== *)
(** * Properties of app.py *)
(* ===================================================================== *)

Module AppProps.

Import PyStr CommandAnalyzer App CommandProps.

Lemma rstrip_cons c s :
  rstrip (String c s) =
  match rstrip s with
  | EmptyString => if isspace c then EmptyString else str1 c
  | String x y => String c (String x y)
  end.
Proof. reflexivity. Qed.

Lemma rstrip_idempotent s : rstrip (rstrip s) = rstrip s.
Proof.
  induction s as [|c s IH]; [reflexivity|].
  rewrite rstrip_cons. destruct (rstrip s) as [|a r] eqn:Hr.
  - destruct (isspace c) eqn:Hc; [reflexivity|].
    unfold str1. rewrite rstrip_cons. cbn [rstrip]. rewrite Hc. reflexivity.
  - rewrite rstrip_cons, IH. reflexivity.
Qed.

(** [s.strip().strip() == s.strip()] *)
Lemma strip_idempotent s : strip (strip s) = strip s.
Proof.
  destruct (strip s) as [|c r] eqn:Hs; [reflexivity|].
  pose proof (strip_head s Hs) as Hc.
  unfold strip at 1. cbn [lstrip]. rewrite Hc.
  rewrite <- Hs. unfold strip. apply rstrip_idempotent.
Qed.

(** X16.  The view for a submitted command answers every request: with the error
    400 when the field is missing or blank, and otherwise with the analysis
    of the field stripped of surrounding whitespace, which it also stores in
    the session; the analysed command is not empty and stripping it again
    changes nothing. *)
Theorem command_view_answers_every_request
        (ast_parse : parser) (form_command : option string) (s : session) :
  let field := match form_command with Some c => c | None => EmptyString end in
  (strip field = EmptyString ->
   analyze_command_route ast_parse form_command s
   = Ok (JsonError "No command provided" 400, s)) /\
  (strip field <> EmptyString ->
   exists r,
     analyze_command ast_parse (strip field) = Ok r /\
     analyze_command_route ast_parse form_command s
     = Ok (CommandResults r, mk_session (last_analysis_results s) (Some r)) /\
     command r = strip field /\ strip (command r) = command r).
Proof.
  intros field. unfold analyze_command_route. fold field. split.
  - intros H. rewrite H. reflexivity.
  - intros H.
    destruct (analyze_command_run ast_parse (strip field)) as (st & _ & Hr).
    eexists. split; [exact Hr|]. rewrite Hr. cbn [command].
    destruct (strip field) eqn:Hs; [contradiction|].
    cbn [nonempty negb]. rewrite <- Hs.
    repeat split. apply strip_idempotent.
Qed.

Lemma command_view_answers_every_request_witness :
  analyze_command_route Examples.accepting_parser (Some "   ")
    (mk_session None None)
  = Ok (JsonError "No command provided" 400, mk_session None None) /\
  exists r,
    analyze_command_route Examples.accepting_parser (Some "  ls -la  ")
      (mk_session None None)
    = Ok (CommandResults r, mk_session None (Some r)) /\
    command r = "ls -la".
Proof.
  split.
  - apply (proj1 (command_view_answers_every_request
                    Examples.accepting_parser (Some "   ")
                    (mk_session None None))).
    reflexivity.
  - destruct (proj2 (command_view_answers_every_request
                       Examples.accepting_parser (Some "  ls -la  ")
                       (mk_session None None)))
      as (r & _ & Hroute & Hc & _).
    + discriminate.
    + exists r. split; [exact Hroute | exact Hc].
Defined.

(** ** The upload view *)

Lemma analyze_uploads_count env :
  forall files acc results,
    analyze_uploads env files acc = Ok results ->
    List.length results =
    List.length acc
    + List.length (filter (fun f => nonempty f && endswith f ".py") files).
Proof.
  induction files as [|f rest IH]; intros acc results H;
    cbn [analyze_uploads filter] in *.
  - inversion H. cbn. lia.
  - destruct (nonempty f && endswith f ".py").
    + destruct (save env (upload_path env f)); [|discriminate].
      destruct (Analyzer.analyze_code (saved_world env) (upload_path env f));
        [|discriminate].
      rewrite (IH _ _ H), length_app. cbn [List.length]. lia.
    + apply (IH _ _ H).
Qed.

Lemma analyze_uploads_none env :
  forall files acc,
    filter (fun f => nonempty f && endswith f ".py") files = [] ->
    analyze_uploads env files acc = Ok acc.
Proof.
  induction files as [|f rest IH]; intros acc H; [reflexivity|].
  cbn [analyze_uploads filter] in *.
  destruct (nonempty f && endswith f ".py"); [discriminate|].
  apply IH. exact H.
Qed.

(** X17.  The upload view answers 400 when the request has no file or its first
    file has no name.  Otherwise, when every Python file is saved and
    analysed without exception, it keeps one result per file whose name ends
    in [.py], stores them in the session and opens the interactive review
    exactly when there is one such file; a request without any such file
    gets the results page with an empty list, not an error. *)
Theorem upload_view_keeps_python_files (env : upload_env) (s : session) :
  upload env [] s = Ok (JsonError "No files uploaded" 400, s) /\
  (forall rest,
      upload env (EmptyString :: rest) s
      = Ok (JsonError "No files uploaded" 400, s)) /\
  (forall first rest results,
      first <> EmptyString ->
      analyze_uploads env (first :: rest) [] = Ok results ->
      List.length results =
      List.length (filter (fun f => nonempty f && endswith f ".py")
                          (first :: rest)) /\
      exists page,
        upload env (first :: rest) s
        = Ok (page, mk_session (Some results) (last_command_analysis s)) /\
        ((exists r, page = InteractiveReview r /\ results = [r])
         \/ (page = Results results /\ List.length results <> 1%nat))) /\
  (forall first rest,
      first <> EmptyString ->
      filter (fun f => nonempty f && endswith f ".py") (first :: rest) = [] ->
      upload env (first :: rest) s
      = Ok (Results [], mk_session (Some []) (last_command_analysis s))).
Proof.
  split; [reflexivity|]. split; [reflexivity|]. split.
  - intros first rest results Hne Hrun. split.
    + rewrite (analyze_uploads_count env _ _ Hrun). reflexivity.
    + unfold upload. rewrite (proj2 (String.eqb_neq _ _) Hne), Hrun.
      destruct results as [|r [|r' more]].
      * eexists. split; [reflexivity|]. right. split; [reflexivity|discriminate].
      * eexists. split; [reflexivity|]. left. eauto.
      * eexists. split; [reflexivity|]. right.
        split; [reflexivity | discriminate].
  - intros first rest Hne Hnone. unfold upload.
    rewrite (proj2 (String.eqb_neq _ _) Hne).
    rewrite (analyze_uploads_none env _ [] Hnone). reflexivity.
Qed.

Lemma upload_view_keeps_python_files_witness :
  upload (mk_upload_env (fun f => "/tmp/up/" ++ f) (fun _ => Ok tt)
            Examples.clean_world)
         ["notes.txt"; "README.md"] (mk_session None None)
  = Ok (Results [], mk_session (Some []) None) /\
  exists page results,
    upload (mk_upload_env (fun f => "/tmp/up/" ++ f) (fun _ => Ok tt)
              Examples.clean_world)
           ["notes.txt"; "my_module.py"] (mk_session None None)
    = Ok (page, mk_session (Some results) None) /\
    List.length results = 1%nat.
Proof.
  pose proof (upload_view_keeps_python_files
                (mk_upload_env (fun f => "/tmp/up/" ++ f) (fun _ => Ok tt)
                   Examples.clean_world) (mk_session None None))
    as (_ & _ & Hsome & Hnone).
  split.
  - apply Hnone; [discriminate | reflexivity].
  - destruct (analyze_uploads
                (mk_upload_env (fun f => "/tmp/up/" ++ f) (fun _ => Ok tt)
                   Examples.clean_world)
                ["notes.txt"; "my_module.py"] []) as [results|e] eqn:E;
      [|vm_compute in E; discriminate].
    destruct (Hsome "notes.txt" ["my_module.py"] results) as (Hlen & page & Hup & _);
      [discriminate | exact E |].
    exists page, results. split; [exact Hup | exact Hlen].
Defined.

End AppProps.
